(** * Stream life cycle of the http2 package: [stream.go]

    A shallow embedding of the per-stream state machine, of the state swap
    with its activation and closure effects, and of the write path with its
    flow-controlled fragmentation, followed by the properties claimed for
    them. *)

From Stdlib Require Import ZArith List Bool Lia.
Import ListNotations.
Local Open Scope Z_scope.

(** ** Stream states and frame kinds *)

(** [type StreamState int32] with its seven [iota] constants. *)
Inductive StreamState : Type :=
| StateIdle
| StateReservedLocal
| StateReservedRemote
| StateOpen
| StateHalfClosedLocal
| StateHalfClosedRemote
| StateClosed.

Definition StreamState_eqb (a b : StreamState) : bool :=
  match a, b with
  | StateIdle, StateIdle
  | StateReservedLocal, StateReservedLocal
  | StateReservedRemote, StateReservedRemote
  | StateOpen, StateOpen
  | StateHalfClosedLocal, StateHalfClosedLocal
  | StateHalfClosedRemote, StateHalfClosedRemote
  | StateClosed, StateClosed => true
  | _, _ => false
  end.

(** Modelled from the spec: the [FrameType] declaration lives in the frame
    codec, outside this file.  [stream.go] names six of its constants
    ([FrameData], [FrameHeaders], [FramePriority], [FrameRSTStream],
    [FramePushPromise], [FrameWindowUpdate]); the remaining kinds of the
    protocol, and any other value of the type, only ever reach the
    [default] branches. *)
Inductive FrameType : Type :=
| FrameData
| FrameHeaders
| FramePriority
| FrameRSTStream
| FrameSettings
| FramePushPromise
| FramePing
| FrameGoAway
| FrameWindowUpdate
| FrameContinuation
| FrameOther (code : Z).      (* any further value of the type *)

Definition is_RSTStream (t : FrameType) : bool :=
  match t with FrameRSTStream => true | _ => false end.

Definition is_Headers (t : FrameType) : bool :=
  match t with FrameHeaders => true | _ => false end.

(** ** The pure transition rule, [func (from StreamState) transition] *)

(** Lines 338-433: the two per-direction tables.  The named result [to]
    starts as [from]; a bare [return] in a [default] branch leaves
    [(from, false)]. *)
Definition transition_base (from : StreamState) (recv : bool)
    (frameType : FrameType) : StreamState * bool :=
  if recv then
    match from with
    | StateIdle =>
        match frameType with
        | FrameHeaders => (StateOpen, true)
        | FramePriority => (from, true)
        | FramePushPromise => (StateReservedRemote, true)
        | _ => (from, false)
        end
    | StateReservedLocal | StateHalfClosedRemote =>
        match frameType with
        | FramePriority | FrameWindowUpdate => (from, true)
        | FrameRSTStream => (StateClosed, true)
        | _ => (from, false)
        end
    | StateReservedRemote =>
        match frameType with
        | FrameHeaders => (StateHalfClosedLocal, true)
        | FramePriority => (from, true)
        | FrameRSTStream => (StateClosed, true)
        | _ => (from, false)
        end
    | StateOpen | StateHalfClosedLocal =>
        match frameType with
        | FrameRSTStream => (StateClosed, true)
        | _ => (from, true)
        end
    | StateClosed =>
        match frameType with
        | FramePriority => (from, true)
        | _ => (from, false)
        end
    end
  else
    match from with
    | StateIdle =>
        match frameType with
        | FrameHeaders => (StateOpen, true)
        | FramePriority => (from, true)
        | FramePushPromise => (StateReservedLocal, true)
        | _ => (from, false)
        end
    | StateReservedLocal =>
        match frameType with
        | FrameHeaders => (StateHalfClosedRemote, true)
        | FramePriority => (from, true)
        | FrameRSTStream => (StateClosed, true)
        | _ => (from, false)
        end
    | StateReservedRemote | StateHalfClosedLocal =>
        match frameType with
        | FramePriority | FrameWindowUpdate => (from, true)
        | FrameRSTStream => (StateClosed, true)
        | _ => (from, false)
        end
    | StateOpen =>
        match frameType with
        | FrameRSTStream => (StateClosed, true)
        | _ => (from, true)
        end
    | StateHalfClosedRemote =>
        match frameType with
        | FrameData | FrameHeaders | FramePriority => (from, true)
        | FrameRSTStream => (StateClosed, true)
        | _ => (from, false)
        end
    | StateClosed =>
        match frameType with
        | FramePriority => (from, true)
        | _ => (from, false)
        end
    end.

(** Lines 435-446: the [if endStream { switch to {...} }] block. *)
Definition end_stream_overlay (recv : bool) (to : StreamState) : StreamState :=
  match to with
  | StateOpen => if recv then StateHalfClosedRemote else StateHalfClosedLocal
  | StateHalfClosedLocal | StateHalfClosedRemote => StateClosed
  | _ => to
  end.

Definition transition (from : StreamState) (recv : bool)
    (frameType : FrameType) (endStream : bool) : StreamState * bool :=
  let '(to, ok) := transition_base from recv frameType in
  if ok
  then ((if endStream then end_stream_overlay recv to else to), true)
  else (to, false).

(** ** The table of the specification, written from its words *)

Module SpecTable.

(** Receiving direction. *)
Definition receiving (from : StreamState) (k : FrameType)
    : option StreamState :=
  match from with
  | StateIdle =>
      match k with
      | FrameHeaders => Some StateOpen
      | FramePriority => Some StateIdle
      | FramePushPromise => Some StateReservedRemote
      | _ => None
      end
  | StateReservedLocal | StateHalfClosedRemote =>
      match k with
      | FramePriority | FrameWindowUpdate => Some from
      | FrameRSTStream => Some StateClosed
      | _ => None
      end
  | StateReservedRemote =>
      match k with
      | FrameHeaders => Some StateHalfClosedLocal
      | FramePriority => Some from
      | FrameRSTStream => Some StateClosed
      | _ => None
      end
  | StateOpen | StateHalfClosedLocal =>
      match k with
      | FrameRSTStream => Some StateClosed
      | _ => Some from
      end
  | StateClosed =>
      match k with
      | FramePriority => Some StateClosed
      | _ => None
      end
  end.

(** Local and Remote exchanged. *)
Definition swap_sides (s : StreamState) : StreamState :=
  match s with
  | StateReservedLocal => StateReservedRemote
  | StateReservedRemote => StateReservedLocal
  | StateHalfClosedLocal => StateHalfClosedRemote
  | StateHalfClosedRemote => StateHalfClosedLocal
  | _ => s
  end.

(** Sending direction: the mirror image, with the two stated exceptions. *)
Definition sending (from : StreamState) (k : FrameType)
    : option StreamState :=
  match from with
  | StateHalfClosedRemote =>
      match k with
      | FrameData | FrameHeaders | FramePriority => Some from
      | FrameRSTStream => Some StateClosed
      | _ => None
      end
  | StateOpen =>
      match k with
      | FrameRSTStream => Some StateClosed
      | _ => Some StateOpen
      end
  | _ => option_map swap_sides (receiving (swap_sides from) k)
  end.

Definition table (recv : bool) (from : StreamState) (k : FrameType)
    : option StreamState :=
  if recv then receiving from k else sending from k.

(** What the rule returns for a table entry: the target and [true], or the
    unchanged state and [false]. *)
Definition outcome (from : StreamState) (e : option StreamState)
    : StreamState * bool :=
  match e with
  | Some to => (to, true)
  | None => (from, false)
  end.

(** The end-of-stream overlay. *)
Definition overlay (recv : bool) (base : StreamState) : StreamState :=
  match base with
  | StateOpen => if recv then StateHalfClosedRemote else StateHalfClosedLocal
  | StateHalfClosedLocal => StateClosed
  | StateHalfClosedRemote => StateClosed
  | StateIdle => StateIdle
  | StateReservedLocal => StateReservedLocal
  | StateReservedRemote => StateReservedRemote
  | StateClosed => StateClosed
  end.

End SpecTable.

(** ** Machine integers *)

(** Go's [int] (64 bits, two's complement), [uint32] and [uint8]: every
    arithmetic result is reduced into the type's range. *)
Definition wrap_int (z : Z) : Z := (z + 2 ^ 63) mod 2 ^ 64 - 2 ^ 63.
Definition wrap_uint32 (z : Z) : Z := z mod 2 ^ 32.
Definition wrap_uint8 (z : Z) : Z := z mod 2 ^ 8.

(** [^uint32(0)], the operand that makes [atomic.AddUint32] subtract one. *)
Definition all_ones_uint32 : Z := 2 ^ 32 - 1.

(** ** Errors *)

Inductive ErrCode : Type :=
| ErrCodeProtocol
| ErrCodeStreamClosed.

(** The texts built by [errors.New] and [fmt.Errorf] in this file. *)
Inductive message : Type :=
| MsgStreamClosed                              (* "stream closed" *)
| MsgAlreadyClosed (id : Z)                    (* "stream %d already closed" *)
| MsgBadStreamState (st : StreamState)         (* "bad stream state %s" *)
| MsgBadFlowControlFrameType (t : FrameType).  (* "bad flow control frame type %s" *)

(** Go's [error] values met here; [nil] is [None] of [option error].
    [ErrClosed], [StreamError] and [ConnError] are declared by the
    connection code; [Foreign] stands for an error produced by a
    collaborator (the frame writer or the flow-control allocator). *)
Inductive error : Type :=
| Errorf (m : message)
| ErrClosed
| StreamError (cause : error) (code : ErrCode) (id : Z)
| ConnError (cause : error) (code : ErrCode)
| Foreign (tag : nat).

Definition errStreamClosed : error := Errorf MsgStreamClosed.

Definition is_nil (e : option error) : bool :=
  match e with None => true | Some _ => false end.

(** ** Frames *)

(** Modelled from the spec: the [Frame] interface and the [DataFrame] struct
    are declared by the frame codec.  Of a data frame the write path reads
    and rewrites [DataLen] (an [int]), [PadLen] (a [uint8]) and [EndStream];
    of any frame it asks [Type()] and [EndOfStream()]. *)
Record DataFrame : Type := mkDataFrame {
  DataLen : Z;
  PadLen : Z;
  EndStream : bool
}.

Inductive Frame : Type :=
| OfData (d : DataFrame)                       (* a [*DataFrame] *)
| OfKind (t : FrameType) (eos : bool).         (* any other concrete frame *)

Definition Type_ (f : Frame) : FrameType :=
  match f with
  | OfData _ => FrameData
  | OfKind t _ => t
  end.

Definition EndOfStream (f : Frame) : bool :=
  match f with
  | OfData d => EndStream d
  | OfKind _ eos => eos
  end.

(** ** Flow-control windows *)

(** The fields set by the struct literal at line 208. *)
Record flowController : Type := mkFlowController {
  win : Z;
  winUpperBound : Z;
  processedWin : Z
}.

(** Modelled from the spec: [remoteFlowController] and its methods are
    declared elsewhere.  It holds the send window; [incrementInitialWindow]
    and [incrementWindow] add to it, [window] reads it, [cancel] tears the
    allocator down. *)
Record remoteFlowController : Type := mkRemoteFlowController {
  window : Z;
  cancelled : bool
}.

Definition incrementInitialWindow (n : Z) (f : remoteFlowController)
    : remoteFlowController :=
  mkRemoteFlowController (wrap_int (window f + n)) (cancelled f).

Definition incrementWindow (n : Z) (f : remoteFlowController)
    : remoteFlowController :=
  mkRemoteFlowController (wrap_int (window f + n)) (cancelled f).

Definition sendFlow_cancel (f : remoteFlowController) : remoteFlowController :=
  mkRemoteFlowController (window f) true.

(** ** Effects on collaborators *)

(** What the stream does to the connection, to its channels and to the frame
    writer, in the order it does it. *)
Inductive event : Type :=
| EvAddStream                                  (* s.conn.addStream(s) *)
| EvRemoveStream                               (* s.conn.removeStream(s) *)
| EvAddNumStreams (local : bool) (delta : Z)   (* atomic.AddUint32(&...numStreams, delta) *)
| EvCloseCh                                    (* close(s.closeCh) *)
| EvCancel (e : error)                         (* select { case s.werr <- err: default: } *)
| EvSendFlowCancel                             (* s.sendFlow.cancel() *)
| EvSendFlowIncrementWindow (delta : Z)        (* s.sendFlow.incrementWindow(delta) *)
| EvReturnBytes (f : flowController)           (* s.recvFlow.returnBytes(s.recvFlow.consumedBytes()) *)
| EvQueueAdd (urgent : bool)                   (* s.conn.writeQueue.add(s, urgent) *)
| EvFlush (f : Frame)                          (* s.Frame.(frameWriterTo).writeTo(w) *)
| EvWerr (e : option error).                   (* s.werr <- err *)

(** ** The connection and the stream *)

(** The part of [*Conn] this file touches. *)
Record Conn : Type := mkConn {
  server : bool;
  numStreams : Z;                 (* uint32 *)
  remote_numStreams : Z;          (* conn.remote.numStreams, uint32 *)
  Settings_InitialWindowSize : Z;
  RemoteSettings_InitialWindowSize : Z;
  conn_closeCh : bool             (* true once the channel is closed *)
}.

(** [type stream struct].  The priority fields [weight], [parent] and
    [children] are never read or written by the code below and are left out.
    [trace] is the list of effects performed so far, oldest first. *)
Record stream : Type := mkStream {
  conn : Conn;
  id : Z;                         (* uint32 *)
  state : StreamState;
  recvFlow : option flowController;
  sendFlow : option remoteFlowController;
  Frame_ : option Frame;          (* the embedded [Frame] *)
  lastWritten : FrameType;
  sawEOS : bool;
  resetSent : bool;
  resetReceived : bool;
  wio : bool;                     (* true while the token sits in the channel *)
  closeCh : bool;                 (* true once the channel is closed *)
  trace : list event
}.

Definition set_conn (c : Conn) (s : stream) : stream :=
  mkStream c (id s) (state s) (recvFlow s) (sendFlow s) (Frame_ s)
    (lastWritten s) (sawEOS s) (resetSent s) (resetReceived s) (wio s)
    (closeCh s) (trace s).

Definition set_state (st : StreamState) (s : stream) : stream :=
  mkStream (conn s) (id s) st (recvFlow s) (sendFlow s) (Frame_ s)
    (lastWritten s) (sawEOS s) (resetSent s) (resetReceived s) (wio s)
    (closeCh s) (trace s).

Definition set_recvFlow (f : option flowController) (s : stream) : stream :=
  mkStream (conn s) (id s) (state s) f (sendFlow s) (Frame_ s)
    (lastWritten s) (sawEOS s) (resetSent s) (resetReceived s) (wio s)
    (closeCh s) (trace s).

Definition set_sendFlow (f : option remoteFlowController) (s : stream)
    : stream :=
  mkStream (conn s) (id s) (state s) (recvFlow s) f (Frame_ s)
    (lastWritten s) (sawEOS s) (resetSent s) (resetReceived s) (wio s)
    (closeCh s) (trace s).

Definition set_Frame (f : Frame) (s : stream) : stream :=
  mkStream (conn s) (id s) (state s) (recvFlow s) (sendFlow s) (Some f)
    (lastWritten s) (sawEOS s) (resetSent s) (resetReceived s) (wio s)
    (closeCh s) (trace s).

Definition set_lastWritten (t : FrameType) (s : stream) : stream :=
  mkStream (conn s) (id s) (state s) (recvFlow s) (sendFlow s) (Frame_ s)
    t (sawEOS s) (resetSent s) (resetReceived s) (wio s)
    (closeCh s) (trace s).

Definition set_sawEOS (b : bool) (s : stream) : stream :=
  mkStream (conn s) (id s) (state s) (recvFlow s) (sendFlow s) (Frame_ s)
    (lastWritten s) b (resetSent s) (resetReceived s) (wio s)
    (closeCh s) (trace s).

Definition set_resetSent (b : bool) (s : stream) : stream :=
  mkStream (conn s) (id s) (state s) (recvFlow s) (sendFlow s) (Frame_ s)
    (lastWritten s) (sawEOS s) b (resetReceived s) (wio s)
    (closeCh s) (trace s).

Definition set_resetReceived (b : bool) (s : stream) : stream :=
  mkStream (conn s) (id s) (state s) (recvFlow s) (sendFlow s) (Frame_ s)
    (lastWritten s) (sawEOS s) (resetSent s) b (wio s)
    (closeCh s) (trace s).

Definition set_wio (b : bool) (s : stream) : stream :=
  mkStream (conn s) (id s) (state s) (recvFlow s) (sendFlow s) (Frame_ s)
    (lastWritten s) (sawEOS s) (resetSent s) (resetReceived s) b
    (closeCh s) (trace s).

Definition set_closeCh (b : bool) (s : stream) : stream :=
  mkStream (conn s) (id s) (state s) (recvFlow s) (sendFlow s) (Frame_ s)
    (lastWritten s) (sawEOS s) (resetSent s) (resetReceived s) (wio s)
    b (trace s).

Definition emit (e : event) (s : stream) : stream :=
  mkStream (conn s) (id s) (state s) (recvFlow s) (sendFlow s) (Frame_ s)
    (lastWritten s) (sawEOS s) (resetSent s) (resetReceived s) (wio s)
    (closeCh s) (trace s ++ [e]).

(** ** Results of effectful code *)

(** Ways a call can fail to return: the two run-time panics this file can
    raise, a [select] none of whose cases is ready, and a loop model that
    ran out of fuel. *)
Inductive fault : Type :=
| NilDereference
| CloseOfClosedChannel
| Blocked
| OutOfFuel.

Inductive res (A : Type) : Type :=
| Ok (a : A)
| Fail (f : fault).

Arguments Ok {A} a.
Arguments Fail {A} f.

Definition bind {A B : Type} (m : res A) (k : A -> res B) : res B :=
  match m with
  | Ok a => k a
  | Fail f => Fail f
  end.

Notation "x <- m ;; k" := (bind m (fun x => k))
  (at level 61, m at next level, right associativity).
Notation "' p <- m ;; k" := (bind m (fun x => let p := x in k))
  (at level 61, p pattern, m at next level, right associativity).

(** ** Small stream operations *)

(** [func (s *stream) active() bool] *)
Definition active (s : stream) : bool :=
  match state s with
  | StateOpen | StateHalfClosedLocal | StateHalfClosedRemote => true
  | _ => false
  end.

(** [func (s *stream) local() bool]:
    [s.conn.server == ((s.id & 1) == 0)] *)
Definition local (s : stream) : bool :=
  Bool.eqb (server (conn s)) (Z.land (id s) 1 =? 0).

(** [func (s *stream) cancel(err error) error]: one non-blocking send on
    [werr]; whether a writer is there to take it is the run time's affair. *)
Definition cancel (err : error) (s : stream) : stream :=
  emit (EvCancel err) s.

(** [atomic.AddUint32] on the counter of the side that opened the stream
    (lines 201-205 and 229-233). *)
Definition addNumStreams (delta : Z) (s : stream) : stream :=
  let c := conn s in
  let c :=
    if local s then
      mkConn (server c) (wrap_uint32 (numStreams c + delta))
        (remote_numStreams c) (Settings_InitialWindowSize c)
        (RemoteSettings_InitialWindowSize c) (conn_closeCh c)
    else
      mkConn (server c) (numStreams c)
        (wrap_uint32 (remote_numStreams c + delta))
        (Settings_InitialWindowSize c)
        (RemoteSettings_InitialWindowSize c) (conn_closeCh c) in
  emit (EvAddNumStreams (local s) delta) (set_conn c s).

(** [s.sendFlow.cancel(); s.sendFlow.incrementWindow(-s.sendFlow.window())]
    on a send window that is there. *)
Definition drain_sendFlow (f : remoteFlowController) (s : stream) : stream :=
  let s := emit EvSendFlowCancel s in
  let f := sendFlow_cancel f in
  let delta := wrap_int (- window f) in
  let s := emit (EvSendFlowIncrementWindow delta) s in
  set_sendFlow (Some (incrementWindow delta f)) s.

(** ** [func (s *stream) compareAndSwapState(from, to StreamState) bool] *)

(** Lines 199-225, the effects of a swap into Open or a half-closed state. *)
Definition swapped_into_active (from to : StreamState) (s : stream)
    : res stream :=
  match from with
  | StateIdle | StateReservedLocal | StateReservedRemote =>
      let s := addNumStreams 1 s in
      let w := wrap_int (Settings_InitialWindowSize (conn s)) in
      let s := set_recvFlow (Some (mkFlowController w w w)) s in
      let s :=
        if negb (StreamState_eqb to StateHalfClosedLocal) then
          let w := wrap_int (RemoteSettings_InitialWindowSize (conn s)) in
          set_sendFlow
            (Some (incrementInitialWindow w (mkRemoteFlowController 0 false)))
            s
        else s in
      let s := if StreamState_eqb from StateIdle then emit EvAddStream s
               else s in
      Ok s
  | StateOpen =>
      if StreamState_eqb to StateHalfClosedLocal then
        let s := cancel errStreamClosed s in
        match sendFlow s with
        | None => Fail NilDereference
        | Some f => Ok (drain_sendFlow f s)
        end
      else Ok s
  | _ => Ok s
  end.

(** Lines 227-249, the effects of a swap into Closed. *)
Definition swapped_into_closed (from : StreamState) (s : stream)
    : res stream :=
  let s :=
    match from with
    | StateOpen | StateHalfClosedLocal | StateHalfClosedRemote =>
        addNumStreams all_ones_uint32 s
    | _ => s
    end in
  if negb (StreamState_eqb from StateClosed) then
    if closeCh s then Fail CloseOfClosedChannel
    else
      let s := emit EvCloseCh (set_closeCh true s) in
      let s := cancel errStreamClosed s in
      let s := match sendFlow s with
               | Some f => drain_sendFlow f s
               | None => s
               end in
      let s := match recvFlow s with
               | Some f => emit (EvReturnBytes f) s
               | None => s
               end in
      Ok (emit EvRemoveStream s)
  else Ok s.

Definition compareAndSwapState (from to : StreamState) (s : stream)
    : res (stream * bool) :=
  if StreamState_eqb (state s) from then
    let s := set_state to s in
    s <- match to with
         | StateReservedLocal | StateReservedRemote =>
             if StreamState_eqb from StateIdle then Ok (emit EvAddStream s)
             else Ok s
         | StateOpen | StateHalfClosedLocal | StateHalfClosedRemote =>
             swapped_into_active from to s
         | StateClosed => swapped_into_closed from s
         | StateIdle => Ok s
         end ;;
    Ok (s, true)
  else Ok (s, false).

(** ** [func (s *stream) transition(recv, frameType, endStream)] *)

(** Lines 261-321: the error for a frame the rule refuses; [from] is the
    state the loop loaded, [s.state] the state read again for the text. *)
Definition illegal_error (from : StreamState) (recv : bool)
    (frameType : FrameType) (s : stream) : error :=
  if negb recv then
    if StreamState_eqb from StateClosed
    then Errorf (MsgAlreadyClosed (id s))
    else Errorf (MsgBadStreamState (state s))
  else if resetReceived s then
    StreamError (Errorf (MsgAlreadyClosed (id s))) ErrCodeStreamClosed (id s)
  else if resetSent s then
    StreamError (Errorf (MsgAlreadyClosed (id s))) ErrCodeStreamClosed (id s)
  else
    match from with
    | StateHalfClosedRemote =>
        ConnError (Errorf (MsgAlreadyClosed (id s))) ErrCodeStreamClosed
    | StateClosed =>
        match frameType with
        | FrameRSTStream | FrameWindowUpdate =>
            ConnError (Errorf (MsgAlreadyClosed (id s))) ErrCodeProtocol
        | _ => ConnError (Errorf (MsgBadStreamState (state s))) ErrCodeProtocol
        end
    | _ => ConnError (Errorf (MsgBadStreamState (state s))) ErrCodeProtocol
    end.

(** One turn of the [for] loop, given the value [from] it loaded: [Some] of
    the returned pair, or [None] when the swap lost and the loop goes
    round again. *)
Definition transition_attempt (from : StreamState) (recv : bool)
    (frameType : FrameType) (endStream : bool) (s : stream)
    : res (stream * option (StreamState * option error)) :=
  let '(to, ok) := transition from recv frameType endStream in
  if negb ok then
    Ok (s, Some (from, Some (illegal_error from recv frameType s)))
  else
    '(s, swapped) <- compareAndSwapState from to s ;;
    if swapped then
      let s :=
        if StreamState_eqb to StateClosed && is_RSTStream frameType then
          if recv then set_resetReceived true s else set_resetSent true s
        else s in
      Ok (s, Some (to, None))
    else Ok (s, None).

(** The loop itself: each turn loads [s.state] afresh. *)
Fixpoint stream_transition (fuel : nat) (recv : bool) (frameType : FrameType)
    (endStream : bool) (s : stream)
    : res (stream * (StreamState * option error)) :=
  match fuel with
  | O => Fail OutOfFuel
  | S fuel' =>
      '(s, r) <- transition_attempt (state s) recv frameType endStream s ;;
      match r with
      | Some out => Ok (s, out)
      | None => stream_transition fuel' recv frameType endStream s
      end
  end.

(** ** [func (s *stream) close()] *)

Fixpoint close (fuel : nat) (s : stream) : res stream :=
  match fuel with
  | O => Fail OutOfFuel
  | S fuel' =>
      '(s, swapped) <- compareAndSwapState (state s) StateClosed s ;;
      if swapped then Ok s else close fuel' s
  end.

(** ** [func (s *stream) writeTo(w *frameWriter) error] *)

(** [flushed] is what the frame's own [writeTo] returned. *)
Definition writeTo (fuel : nat) (flushed : option error) (s : stream)
    : res (stream * option error) :=
  match Frame_ s with
  | None => Fail NilDereference
  | Some f =>
      let s := emit (EvFlush f) s in
      let s := set_lastWritten (Type_ f) s in
      let s := set_sawEOS (EndOfStream f) s in
      let s := emit (EvWerr flushed) s in
      if sawEOS s && is_nil flushed then
        '(s, out) <- stream_transition fuel false (lastWritten s) true s ;;
        Ok (s, snd out)
      else Ok (s, flushed)
  end.

(** ** [func (s *stream) write(frame Frame) error] *)

(** The collaborators of the write path, by the contracts they are used
    through: the [k]-th call of [allocateBytes] of a write, asked for
    [wanted] bytes, answers [(granted, err)]; the [j]-th unit the write
    dispatcher transmits for it flushes with outcome [flushOutcome j]. *)
Record Collaborators : Type := mkCollaborators {
  allocateBytes : nat -> Z -> Z * option error;
  flushOutcome : nat -> option error
}.

(** [s.conn.writeQueue.add(s, false)] followed by [<-s.werr]: the dispatcher
    calls [writeTo] once for the queued unit, and the writer receives what
    [writeTo] sent on [werr]. *)
Definition submit (E : Collaborators) (fuel : nat) (j : nat) (s : stream)
    : res (stream * option error) :=
  let s := emit (EvQueueAdd false) s in
  '(s, _) <- writeTo fuel (flushOutcome E j) s ;;
  Ok (s, flushOutcome E j).

(** Lines 122-137: one chunk cut from what is left, under a budget of
    [allowed] bytes.  Returns the chunk, the payload and padding still to
    send, and [lastFrame]. *)
Definition cut_chunk (data : DataFrame) (dataLen padLen allowed : Z)
    : DataFrame * Z * Z * bool :=
  let chunkLen := if dataLen >? allowed then allowed else dataLen in
  let padding := wrap_int (allowed - chunkLen) in
  let padding := if padding >? padLen then padLen else padding in
  let dataLen := wrap_int (dataLen - chunkLen) in
  let padLen := wrap_int (padLen - padding) in
  let lastFrame := wrap_int (dataLen + padLen) =? 0 in
  (mkDataFrame chunkLen (wrap_uint8 padding) (EndStream data && lastFrame),
   dataLen, padLen, lastFrame).

(** Lines 121-151, the [again:] loop.  [s.Frame] points at [chunk], so every
    rewrite of the chunk shows through it.  [k] numbers the next allocator
    call, [j] the next transmitted unit. *)
Fixpoint write_again (E : Collaborators) (fuel : nat) (k j : nat)
    (data : DataFrame) (dataLen padLen allowed : Z) (s : stream)
    : res (stream * option error) :=
  match fuel with
  | O => Fail OutOfFuel
  | S fuel' =>
      let '(chunk, dataLen, padLen, lastFrame) :=
        cut_chunk data dataLen padLen allowed in
      let s := set_Frame (OfData chunk) s in
      '(s, err) <- submit E fuel j s ;;
      if lastFrame || negb (is_nil err) then Ok (s, err)
      else
        let '(allowed, err) := allocateBytes E k (wrap_int (dataLen + padLen)) in
        match err with
        | Some e => Ok (s, Some e)
        | None =>
            write_again E fuel' (S k) (S j) data dataLen padLen allowed s
        end
  end.

(** Lines 86-151, the body run while the token is held. *)
Definition write_locked (E : Collaborators) (fuel : nat) (frame : Frame)
    (s : stream) : res (stream * option error) :=
  if sawEOS s then Ok (s, Some errStreamClosed)
  else if is_Headers (Type_ frame) then
    submit E fuel 0 (set_Frame frame s)
  else
    match frame with
    | OfKind _ _ =>
        Ok (s, Some (Errorf (MsgBadFlowControlFrameType (Type_ frame))))
    | OfData data =>
        let dataLen := DataLen data in
        let padLen := PadLen data in
        let '(allowed, err) := allocateBytes E 0 (wrap_int (dataLen + padLen)) in
        match err with
        | Some e => Ok (s, Some e)
        | None =>
            if allowed =? wrap_int (dataLen + padLen) then
              submit E fuel 0 (set_Frame frame s)
            else
              write_again E fuel 1 0 data dataLen padLen allowed s
        end
    end.

(** The three cases of the [select]. *)
Inductive select_case : Type :=
| ConnClosed          (* <-s.conn.closeCh *)
| StreamClosed        (* <-s.closeCh *)
| TokenTaken.         (* <-s.wio *)

(** [write], with the case the [select] took; a case that is not ready
    cannot be taken.  The deferred [s.wio <- struct{}{}] puts the token
    back when the body returns. *)
Definition write (E : Collaborators) (fuel : nat) (taken : select_case)
    (frame : Frame) (s : stream) : res (stream * option error) :=
  match taken with
  | ConnClosed =>
      if conn_closeCh (conn s) then Ok (s, Some ErrClosed) else Fail Blocked
  | StreamClosed =>
      if closeCh s then Ok (s, Some errStreamClosed) else Fail Blocked
  | TokenTaken =>
      if wio s then
        '(s, err) <- write_locked E fuel frame (set_wio false s) ;;
        Ok (set_wio true s, err)
      else Fail Blocked
  end.

(** ** Runs of racing attempts *)

(** One turn of a state-changing loop, by whichever goroutine, with the
    value of [s.state] it had loaded beforehand (possibly stale by now). *)
Inductive attempt : Type :=
| TryTransition (from : StreamState) (recv : bool) (frameType : FrameType)
                (endStream : bool)
| TryClose (from : StreamState).

Definition attempt_step (a : attempt) (s : stream) : res stream :=
  match a with
  | TryTransition from recv frameType endStream =>
      '(s, _) <- transition_attempt from recv frameType endStream s ;;
      Ok s
  | TryClose from =>
      '(s, _) <- compareAndSwapState from StateClosed s ;;
      Ok s
  end.

Fixpoint run (l : list attempt) (s : stream) : res stream :=
  match l with
  | [] => Ok s
  | a :: l' => s <- attempt_step a s ;; run l' s
  end.

(** Modelled from the spec: the constructor of streams is in the connection
    code.  A stream is created Idle, with no flow-control window, its
    closure channel open, and nothing done yet. *)
Definition fresh (s : stream) : Prop :=
  state s = StateIdle /\ recvFlow s = None /\ sendFlow s = None
  /\ closeCh s = false /\ trace s = [].

(** ** Reading the trace *)

Definition is_increment (e : event) : bool :=
  match e with
  | EvAddNumStreams _ delta => delta =? 1
  | _ => false
  end.

Definition is_decrement (e : event) : bool :=
  match e with
  | EvAddNumStreams _ delta => delta =? all_ones_uint32
  | _ => false
  end.

Definition count (p : event -> bool) (l : list event) : nat :=
  length (filter p l).

(** The frames handed to the frame writer, oldest first. *)
Fixpoint flushed_frames (l : list event) : list Frame :=
  match l with
  | [] => []
  | EvFlush f :: l' => f :: flushed_frames l'
  | _ :: l' => flushed_frames l'
  end.

Definition sumZ (l : list Z) : Z := fold_right Z.add 0 l.

(** ** The illegality policy of the specification, written from its words *)

Module SpecErrors.

Inductive classification : Type :=
| StreamAlreadyClosed (id : Z)     (* stream-level "already closed", naming the stream *)
| GenericBadState                  (* generic bad-state failure *)
| StreamErrorOf (code : ErrCode)   (* stream error of the given kind *)
| ConnectionErrorOf (code : ErrCode). (* connection-level error of the given kind *)

(** How an error value of the code reads in the specification's terms. *)
Definition classify (e : error) : option classification :=
  match e with
  | Errorf (MsgAlreadyClosed id) => Some (StreamAlreadyClosed id)
  | Errorf (MsgBadStreamState _) => Some GenericBadState
  | StreamError _ code _ => Some (StreamErrorOf code)
  | ConnError _ code => Some (ConnectionErrorOf code)
  | _ => None
  end.

(** The priority order of the policy. *)
Definition policy (recv : bool) (st : StreamState) (k : FrameType)
    (id : Z) (resetReceived resetSent : bool) : classification :=
  if negb recv then
    match st with
    | StateClosed => StreamAlreadyClosed id
    | _ => GenericBadState
    end
  else if resetReceived then StreamErrorOf ErrCodeStreamClosed
  else if resetSent then StreamErrorOf ErrCodeStreamClosed
  else
    match st, k with
    | StateHalfClosedRemote, _ => ConnectionErrorOf ErrCodeStreamClosed
    | StateClosed, FrameRSTStream => ConnectionErrorOf ErrCodeProtocol
    | StateClosed, FrameWindowUpdate => ConnectionErrorOf ErrCodeProtocol
    | _, _ => ConnectionErrorOf ErrCodeProtocol
    end.

End SpecErrors.

(** ** Classes of states and the invariant of a stream's life *)

Definition pre_active_state (st : StreamState) : bool :=
  match st with
  | StateIdle | StateReservedLocal | StateReservedRemote => true
  | _ => false
  end.

Definition active_state (st : StreamState) : bool :=
  match st with
  | StateOpen | StateHalfClosedLocal | StateHalfClosedRemote => true
  | _ => false
  end.

Definition is_EvCloseCh (e : event) : bool :=
  match e with EvCloseCh => true | _ => false end.

Definition is_EvRemoveStream (e : event) : bool :=
  match e with EvRemoveStream => true | _ => false end.

Definition on_side (side : bool) (e : event) : Prop :=
  match e with
  | EvAddNumStreams l _ => l = side
  | _ => True
  end.

(** The targets a swap is ever attempted with, from a given state: the
    results of the pure rule, and Closed. *)
Definition moves (from to : StreamState) : bool :=
  match from with
  | StateIdle | StateReservedLocal | StateReservedRemote => true
  | StateOpen => negb (pre_active_state to)
  | StateHalfClosedLocal =>
      StreamState_eqb to StateHalfClosedLocal || StreamState_eqb to StateClosed
  | StateHalfClosedRemote =>
      StreamState_eqb to StateHalfClosedRemote || StreamState_eqb to StateClosed
  | StateClosed => StreamState_eqb to StateClosed
  end.

(** What holds of a stream at every point of its life. *)
Record inv (s : stream) : Prop := mkInv {
  inv_closeCh : closeCh s = StreamState_eqb (state s) StateClosed;
  inv_closes : count is_EvCloseCh (trace s)
               = if StreamState_eqb (state s) StateClosed then 1%nat else 0%nat;
  inv_removes : count is_EvRemoveStream (trace s)
                = if StreamState_eqb (state s) StateClosed then 1%nat else 0%nat;
  inv_pre : pre_active_state (state s) = true ->
            count is_increment (trace s) = 0%nat
            /\ recvFlow s = None /\ sendFlow s = None;
  inv_active : active_state (state s) = true ->
               count is_increment (trace s) = 1%nat /\ recvFlow s <> None;
  inv_open : state s = StateOpen -> sendFlow s <> None;
  inv_incs : (count is_increment (trace s) <= 1)%nat;
  inv_decs : count is_decrement (trace s)
             = if StreamState_eqb (state s) StateClosed
               then count is_increment (trace s) else 0%nat;
  inv_side : Forall (on_side (local s)) (trace s)
}.

(** ** What a swap is expected to do, written from the specification *)

(** The active-stream counter of the side that opened the stream, and the
    other one. *)
Definition counter (s : stream) : Z :=
  if local s then numStreams (conn s) else remote_numStreams (conn s).

Definition other_counter (s : stream) : Z :=
  if local s then remote_numStreams (conn s) else numStreams (conn s).

(** The effects of the first swap into Closed, on a stream whose windows are
    as in [s]: broadcast the closure, cancel a waiting writer, cancel and
    zero the send window if there is one, give back the consumed bytes of the
    receive window if there is one, remove the stream from the table. *)
Definition closure_effects (s : stream) : list event :=
  [EvCloseCh; EvCancel errStreamClosed]
  ++ match sendFlow s with
     | Some f => [EvSendFlowCancel;
                  EvSendFlowIncrementWindow (wrap_int (- window f))]
     | None => []
     end
  ++ match recvFlow s with
     | Some f => [EvReturnBytes f]
     | None => []
     end
  ++ [EvRemoveStream].

Definition is_activation (from to : StreamState) : bool :=
  pre_active_state from && active_state to.

Definition is_deactivation (from to : StreamState) : bool :=
  active_state from && StreamState_eqb to StateClosed.

Definition is_first_close (from to : StreamState) : bool :=
  StreamState_eqb to StateClosed && negb (StreamState_eqb from StateClosed).

(** ** What the state machinery leaves alone *)

Definition is_EvQueueAdd (e : event) : bool :=
  match e with EvQueueAdd _ => true | _ => false end.

Definition is_EvWerr (e : event) : bool :=
  match e with EvWerr _ => true | _ => false end.

(** A swap or a transition only adds to the trace, and touches neither the
    write-path fields nor what was queued, flushed or delivered so far. *)
Record same_io (s s' : stream) : Prop := mkSameIo {
  io_lastWritten : lastWritten s' = lastWritten s;
  io_sawEOS : sawEOS s' = sawEOS s;
  io_Frame : Frame_ s' = Frame_ s;
  io_wio : wio s' = wio s;
  io_id : id s' = id s;
  io_trace : exists evs, trace s' = trace s ++ evs;
  io_flushed : flushed_frames (trace s') = flushed_frames (trace s);
  io_queued : count is_EvQueueAdd (trace s') = count is_EvQueueAdd (trace s);
  io_werr : count is_EvWerr (trace s') = count is_EvWerr (trace s)
}.

(** The stream as [writeTo] leaves it before it looks at the outcome: the
    frame flushed, its kind and end-of-stream flag recorded, the outcome
    sent on [werr]. *)
Definition recorded (f : Frame) (flushed : option error) (s : stream)
    : stream :=
  emit (EvWerr flushed)
    (set_sawEOS (EndOfStream f)
       (set_lastWritten (Type_ f) (emit (EvFlush f) s))).

(** Modelled from the spec: the constructor of streams is in the connection
    code.  A new stream is Idle, has no window and no pending frame, holds
    its write token, and its closure channel is open. *)
Definition new_stream (c : Conn) (id : Z) : stream :=
  mkStream c id StateIdle None None None FrameData false false false
    true false [].

(** A server connection with the protocol's default window sizes, for
    worked examples. *)
Definition example_conn : Conn := mkConn true 0 0 65535 65535 false.

(** ** Collaborators of the fragmentation property *)

(** The allocator that grants [min(wanted, K)] on every call, and a frame
    writer that never fails. *)
Definition steady (K : Z) : Collaborators :=
  mkCollaborators (fun _ wanted => (Z.min wanted K, None)) (fun _ => None).

(** The frame was queued once for the write dispatcher, flushed, and the
    write returned the outcome the dispatcher delivered for it, the token
    back in place. *)
Definition handed_to_dispatcher (E : Collaborators) (fuel : nat) (f : Frame)
    (s : stream) : Prop :=
  exists (s' : stream) (evs : list event),
    write E fuel TokenTaken f s = Ok (s', flushOutcome E 0)
    /\ trace s'
       = trace s ++ [EvQueueAdd false; EvFlush f; EvWerr (flushOutcome E 0)]
         ++ evs
    /\ count is_EvQueueAdd (trace s') = S (count is_EvQueueAdd (trace s))
    /\ flushed_frames (trace s') = flushed_frames (trace s) ++ [f]
    /\ wio s' = true.

(** ** Fragmentation, as the specification describes it *)

(** An allocator that never fails and grants at least one byte and at most
    what was asked for (nothing when nothing was asked for). *)
Definition grants_progress (E : Collaborators) : Prop :=
  forall (k : nat) (wanted : Z),
    0 <= wanted ->
    snd (allocateBytes E k wanted) = None
    /\ Z.min 1 wanted <= fst (allocateBytes E k wanted) <= wanted.

(** The chunks of a data write with [dataLen] payload and [padLen] padding
    bytes left and [allowed] bytes granted for the next chunk: the budget
    goes to payload first, padding takes what is left of it; the chunk that
    leaves nothing behind is the last and carries the frame's end-of-stream
    flag, every other chunk carries none and is followed, if its transmit
    succeeded, by the chunks cut under the next grant. *)
Fixpoint chunks_cut (E : Collaborators) (eos : bool) (k j : nat)
    (dataLen padLen allowed : Z) (chunks : list DataFrame) : Prop :=
  match chunks with
  | [] => False
  | c :: rest =>
      DataLen c = Z.min dataLen allowed
      /\ PadLen c = Z.min (allowed - DataLen c) padLen
      /\ if (dataLen - DataLen c) + (padLen - PadLen c) =? 0
         then EndStream c = eos /\ rest = []
         else EndStream c = false
              /\ if is_nil (flushOutcome E j)
                 then chunks_cut E eos (S k) (S j)
                        (dataLen - DataLen c) (padLen - PadLen c)
                        (fst (allocateBytes E k
                                ((dataLen - DataLen c) + (padLen - PadLen c))))
                        rest
                 else rest = []
  end.
(** ** Further operations of [stream.go] *)

(** [func (s *stream) readable() bool] *)
Definition readable (s : stream) : bool :=
  match state s with
  | StateOpen | StateHalfClosedLocal => true
  | _ => false
  end.

(** [func (s *stream) writable() bool] *)
Definition writable (s : stream) : bool :=
  match state s with
  | StateOpen | StateHalfClosedRemote => true
  | _ => false
  end.

(** How far along its life a state is: Idle, reserved, Open, half-closed,
    Closed. *)
Definition rank (st : StreamState) : nat :=
  match st with
  | StateIdle => 0
  | StateReservedLocal | StateReservedRemote => 1
  | StateOpen => 2
  | StateHalfClosedLocal | StateHalfClosedRemote => 3
  | StateClosed => 4
  end.

Definition is_EvAddStream (e : event) : bool :=
  match e with EvAddStream => true | _ => false end.

(** The stream was put in the connection's table at most once, and is in
    it from the moment it leaves Idle for a reserved or an active state. *)
Definition registered_once (s : stream) : Prop :=
  (count is_EvAddStream (trace s) <= 1)%nat
  /\ (state s = StateIdle -> count is_EvAddStream (trace s) = 0%nat)
  /\ (state s <> StateIdle -> state s <> StateClosed ->
      count is_EvAddStream (trace s) = 1%nat).

(** The counters stand at [c0] and [o0] but for the one this stream holds
    while it is active. *)
Definition counters_balanced (c0 o0 : Z) (s : stream) : Prop :=
  other_counter s = o0
  /\ counter s
     = if active_state (state s) then wrap_uint32 (c0 + 1) else c0.

(** The state machinery of a stream: everything but the write-path fields
    and the trace. *)
Record same_machine (s s' : stream) : Prop := mkSameMachine {
  sm_conn : conn s' = conn s;
  sm_id : id s' = id s;
  sm_state : state s' = state s;
  sm_recvFlow : recvFlow s' = recvFlow s;
  sm_sendFlow : sendFlow s' = sendFlow s;
  sm_resetSent : resetSent s' = resetSent s;
  sm_resetReceived : resetReceived s' = resetReceived s;
  sm_closeCh : closeCh s' = closeCh s
}.


(** * Properties *)

Lemma StreamState_eqb_eq (a b : StreamState) :
  StreamState_eqb a b = true <-> a = b.
Proof. destruct a, b; simpl; split; intro H; congruence. Qed.

Lemma StreamState_eqb_refl (a : StreamState) : StreamState_eqb a a = true.
Proof. now destruct a. Qed.

Lemma StreamState_eqb_neq (a b : StreamState) :
  StreamState_eqb a b = false <-> a <> b.
Proof. destruct a, b; simpl; split; intro H; congruence. Qed.

(** ** Properties of the pure rule *)

(** C1: before the end-of-stream overlay, the rule is exactly the
    two-direction table of the specification, for all seven states, both
    directions and every frame kind: the table's target with [ok = true]
    where the table has an entry, the unchanged state with [ok = false] where
    it has none.  The same holds of the whole rule called without
    end-of-stream. *)
Theorem transition_matches_table :
  forall (recv : bool) (from : StreamState) (k : FrameType),
    transition_base from recv k
      = SpecTable.outcome from (SpecTable.table recv from k)
    /\ transition from recv k false
      = SpecTable.outcome from (SpecTable.table recv from k).
Proof.
  intros recv from k.
  destruct recv, from, k; split; reflexivity.
Qed.

(** C2: for a legal transition, calling the rule with end-of-stream gives
    the overlay of the result it gives without: Open becomes
    HalfClosedRemote on receive and HalfClosedLocal on send, either
    half-closed state becomes Closed, and Idle, ReservedLocal,
    ReservedRemote and Closed stay as they are. *)
Theorem end_stream_overlay_after_base :
  forall (recv : bool) (from : StreamState) (k : FrameType)
         (base : StreamState),
    transition from recv k false = (base, true) ->
    transition from recv k true = (SpecTable.overlay recv base, true).
Proof.
  intros recv from k base H.
  destruct recv, from, k; simpl in H; inversion H; subst; reflexivity.
Qed.

Lemma end_stream_overlay_after_base_witness :
  transition StateIdle true FrameHeaders false = (StateOpen, true)
  /\ transition StateIdle true FrameHeaders true
     = (SpecTable.overlay true StateOpen, true).
Proof.
  split; [reflexivity|].
  apply (end_stream_overlay_after_base true StateIdle FrameHeaders StateOpen).
  reflexivity.
Defined.

(** ** The state swap *)

Lemma compareAndSwapState_lost (from to : StreamState) (s : stream) :
  state s <> from -> compareAndSwapState from to s = Ok (s, false).
Proof.
  intro H. unfold compareAndSwapState.
  apply StreamState_eqb_neq in H. now rewrite H.
Qed.

Lemma compareAndSwapState_closed_closed (s : stream) :
  state s = StateClosed ->
  compareAndSwapState StateClosed StateClosed s = Ok (s, true).
Proof.
  intro H. unfold compareAndSwapState. rewrite H. simpl.
  destruct s; simpl in *; subst; reflexivity.
Qed.

(** ** The transition loop *)

(** C3: when the rule refuses the frame, the loop returns at once, with the
    state it loaded and the stream untouched, an error classified by the
    policy's priority order: on send, already-closed naming the stream when
    Closed, else bad state; on receive, stream error STREAM_CLOSED after a
    reset was received, else the same after a reset was sent, else
    connection error STREAM_CLOSED in HalfClosedRemote, else connection
    error PROTOCOL_ERROR. *)
Theorem illegal_transition_classified :
  forall (fuel : nat) (recv : bool) (k : FrameType) (endStream : bool)
         (s : stream),
    snd (transition (state s) recv k endStream) = false ->
    exists e : error,
      stream_transition (S fuel) recv k endStream s
        = Ok (s, (state s, Some e))
      /\ SpecErrors.classify e
         = Some (SpecErrors.policy recv (state s) k (id s)
                   (resetReceived s) (resetSent s)).
Proof.
  intros fuel recv k endStream s H.
  exists (illegal_error (state s) recv k s).
  split.
  - simpl. unfold transition_attempt.
    destruct (transition (state s) recv k endStream) as [to ok].
    simpl in H. subst ok. reflexivity.
  - unfold illegal_error, SpecErrors.policy.
    destruct recv; simpl.
    + destruct (resetReceived s); [reflexivity|].
      destruct (resetSent s); [reflexivity|].
      destruct (state s), k; reflexivity.
    + destruct (state s); reflexivity.
Qed.

Lemma illegal_transition_classified_witness :
  snd (transition
         (state (set_state StateHalfClosedRemote (new_stream example_conn 3)))
         true FrameData false) = false
  /\ exists e : error,
       stream_transition 1 true FrameData false
         (set_state StateHalfClosedRemote (new_stream example_conn 3))
       = Ok (set_state StateHalfClosedRemote (new_stream example_conn 3),
             (StateHalfClosedRemote, Some e))
       /\ SpecErrors.classify e
          = Some (SpecErrors.ConnectionErrorOf ErrCodeStreamClosed).
Proof.
  split; [reflexivity|].
  apply (illegal_transition_classified 0 true FrameData false
           (set_state StateHalfClosedRemote (new_stream example_conn 3))).
  reflexivity.
Defined.

(** C6: Closed is terminal.  On a Closed stream a priority frame is
    accepted and changes nothing, any other frame is refused with an error
    and changes nothing, in both directions and with either end-of-stream
    flag, and [close] returns at once with the stream as it was. *)
Theorem closed_is_terminal :
  forall (fuel : nat) (recv : bool) (k : FrameType) (endStream : bool)
         (s : stream),
    state s = StateClosed ->
    (k = FramePriority ->
       stream_transition (S fuel) recv k endStream s
         = Ok (s, (StateClosed, None)))
    /\ (k <> FramePriority ->
          exists e : error,
            stream_transition (S fuel) recv k endStream s
              = Ok (s, (StateClosed, Some e)))
    /\ close (S fuel) s = Ok s
    /\ (forall s' out,
          stream_transition (S fuel) recv k endStream s = Ok (s', out) ->
          state s' = StateClosed).
Proof.
  intros fuel recv k endStream s H.
  assert (Hp : k = FramePriority ->
               stream_transition (S fuel) recv k endStream s
                 = Ok (s, (StateClosed, None))).
  { intros ->. simpl. unfold transition_attempt. rewrite H.
    assert (Ht : transition StateClosed recv FramePriority endStream
                 = (StateClosed, true))
      by (destruct recv, endStream; reflexivity).
    rewrite Ht. simpl.
    rewrite (compareAndSwapState_closed_closed s H). reflexivity. }
  assert (Hn : k <> FramePriority ->
               exists e : error,
                 stream_transition (S fuel) recv k endStream s
                   = Ok (s, (StateClosed, Some e))).
  { intro Hk. exists (illegal_error StateClosed recv k s).
    simpl. unfold transition_attempt. rewrite H.
    assert (Ht : transition StateClosed recv k endStream
                 = (StateClosed, false))
      by (destruct recv, endStream, k; try reflexivity; congruence).
    rewrite Ht. reflexivity. }
  repeat split; try assumption.
  - simpl. rewrite H.
    rewrite (compareAndSwapState_closed_closed s H). reflexivity.
  - intros s' out Hs.
    assert (Hd : k = FramePriority \/ k <> FramePriority)
      by (destruct k; (now left) || (right; congruence)).
    destruct Hd as [Hk | Hk].
    + rewrite (Hp Hk) in Hs. inversion Hs; subst. assumption.
    + destruct (Hn Hk) as [e He]. rewrite He in Hs.
      inversion Hs; subst. assumption.
Qed.

Lemma closed_is_terminal_witness :
  state (set_state StateClosed (new_stream example_conn 3)) = StateClosed
  /\ stream_transition 1 true FramePriority true
       (set_state StateClosed (new_stream example_conn 3))
     = Ok (set_state StateClosed (new_stream example_conn 3),
           (StateClosed, None))
  /\ close 1 (set_state StateClosed (new_stream example_conn 3))
     = Ok (set_state StateClosed (new_stream example_conn 3)).
Proof.
  split; [reflexivity|].
  destruct (closed_is_terminal 0 true FramePriority true
              (set_state StateClosed (new_stream example_conn 3)) eq_refl)
    as (Hp & _ & Hc & _).
  split; [exact (Hp eq_refl)|exact Hc].
Defined.

(** ** Life-cycle invariant *)

Lemma count_app (p : event -> bool) (l1 l2 : list event) :
  count p (l1 ++ l2) = (count p l1 + count p l2)%nat.
Proof. unfold count. now rewrite filter_app, length_app. Qed.

Lemma transition_moves (from to : StreamState) (recv : bool) (k : FrameType)
    (endStream : bool) :
  transition from recv k endStream = (to, true) -> moves from to = true.
Proof.
  destruct from, recv, k, endStream; simpl; intro H; inversion H;
    reflexivity.
Qed.

Lemma fresh_inv (s : stream) : fresh s -> inv s.
Proof.
  intros (Hst & Hr & Hs & Hc & Ht).
  constructor; rewrite ?Hst, ?Ht; simpl; auto; try discriminate.
Qed.

Lemma addNumStreams_fields (d : Z) (s : stream) :
  local (addNumStreams d s) = local s
  /\ state (addNumStreams d s) = state s
  /\ recvFlow (addNumStreams d s) = recvFlow s
  /\ sendFlow (addNumStreams d s) = sendFlow s
  /\ closeCh (addNumStreams d s) = closeCh s
  /\ trace (addNumStreams d s) = trace s ++ [EvAddNumStreams (local s) d]
  /\ Settings_InitialWindowSize (conn (addNumStreams d s))
     = Settings_InitialWindowSize (conn s)
  /\ RemoteSettings_InitialWindowSize (conn (addNumStreams d s))
     = RemoteSettings_InitialWindowSize (conn s).
Proof.
  unfold addNumStreams, local.
  destruct (Bool.eqb (server (conn s)) (Z.land (id s) 1 =? 0)) eqn:E;
    simpl; rewrite ?E; repeat split; reflexivity.
Qed.

Lemma compareAndSwapState_inv (from to : StreamState) (s : stream) :
  inv s -> moves from to = true ->
  exists s' b, compareAndSwapState from to s = Ok (s', b)
               /\ inv s' /\ local s' = local s
               /\ (b = true -> state s' = to).
Proof.
  intros I M.
  destruct (StreamState_eqb (state s) from) eqn:E.
  2:{ exists s, false. apply StreamState_eqb_neq in E.
      rewrite (compareAndSwapState_lost _ _ _ E).
      split; [reflexivity|]. split; [assumption|].
      split; [reflexivity|discriminate]. }
  apply StreamState_eqb_eq in E. subst from.
  destruct I as [Ic Icl Irm Ipre Iact Iopen Iincs Idecs Iside].
  unfold compareAndSwapState. rewrite StreamState_eqb_refl.
  destruct s as [c i st rf sf fr lw eos rs rr w cl tr].
  simpl in *.
  destruct st, to; simpl in M; try discriminate; simpl in *.
  all: try (destruct (Ipre eq_refl) as (Hi & -> & ->)).
  all: try (destruct (Iact eq_refl) as (Hi & Hrf)).
  all: try (specialize (Iopen eq_refl)).
  all: subst cl.
  all: unfold swapped_into_active, swapped_into_closed, drain_sendFlow,
         cancel, addNumStreams, local in *; simpl in *.
  all: try (destruct sf as [sf|]; [|congruence]).
  all: try (destruct rf as [rf|]; [|congruence]).
  all: try (destruct sf as [sf|]).
  all: simpl.
  all: destruct (Bool.eqb (server c) (Z.land i 1 =? 0)) eqn:L; simpl.
  all: eexists; eexists; (split; [reflexivity|]);
       (split; [|split; [unfold local; simpl; try rewrite L; reflexivity
                        |reflexivity]]).
  all: constructor; simpl; rewrite ?count_app; simpl;
       rewrite ?Icl, ?Irm, ?Idecs, ?Hi; simpl;
       try reflexivity; try lia; try congruence; try (intros; discriminate).
  all: try (intros _; repeat split; congruence).
  all: unfold local in *; simpl in *; rewrite ?L in *; rewrite ?Forall_app;
       repeat split; try assumption; repeat constructor.
Qed.

Lemma attempt_step_inv (a : attempt) (s : stream) :
  inv s -> exists s', attempt_step a s = Ok s' /\ inv s' /\ local s' = local s.
Proof.
  intro I. destruct a as [from recv k endStream | from]; simpl.
  - unfold transition_attempt.
    destruct (transition from recv k endStream) as [to ok] eqn:T.
    destruct ok; simpl.
    + destruct (compareAndSwapState_inv from to s I (transition_moves _ _ _ _ _ T))
        as (s' & b & -> & I' & L & _).
      simpl. destruct b; simpl.
      * eexists; split; [reflexivity|].
        destruct (StreamState_eqb to StateClosed && is_RSTStream k);
          [destruct recv|]; (split; [|exact L]);
          destruct I'; constructor; assumption.
      * exists s'. auto.
    + exists s. auto.
  - assert (M : moves from StateClosed = true) by (now destruct from).
    destruct (compareAndSwapState_inv from StateClosed s I M)
      as (s' & b & -> & I' & L & _).
    simpl. exists s'. auto.
Qed.

Lemma run_inv (l : list attempt) :
  forall s, inv s -> exists s', run l s = Ok s' /\ inv s' /\ local s' = local s.
Proof.
  induction l as [|a l IH]; intros s I; simpl.
  - exists s. auto.
  - destruct (attempt_step_inv a s I) as (s1 & -> & I1 & L1). simpl.
    destruct (IH s1 I1) as (s2 & R & I2 & L2).
    exists s2. rewrite R.
    split; [reflexivity|]. split; [assumption|congruence].
Qed.


(** ** What one swap does *)

Lemma wrap_int_cancel (w : Z) : wrap_int (w + wrap_int (- w)) = 0.
Proof.
  unfold wrap_int.
  replace (w + ((- w + 2 ^ 63) mod 2 ^ 64 - 2 ^ 63) + 2 ^ 63)
    with (w + (- w + 2 ^ 63) mod 2 ^ 64) by ring.
  rewrite Zplus_mod_idemp_r.
  replace (w + (- w + 2 ^ 63)) with (2 ^ 63) by ring.
  reflexivity.
Qed.

Lemma compareAndSwapState_effects (from to : StreamState) (s s' : stream) :
  compareAndSwapState from to s = Ok (s', true) ->
  state s = from /\ state s' = to /\ local s' = local s
  /\ other_counter s' = other_counter s
  /\ counter s'
     = (if is_activation from to then wrap_uint32 (counter s + 1)
        else if is_deactivation from to
             then wrap_uint32 (counter s + all_ones_uint32)
             else counter s)
  /\ exists evs : list event,
       trace s' = trace s ++ evs
       /\ count is_increment evs
          = (if is_activation from to then 1%nat else 0%nat)
       /\ count is_decrement evs
          = (if is_deactivation from to then 1%nat else 0%nat)
       /\ (if is_first_close from to
           then evs = (if active_state from
                       then [EvAddNumStreams (local s) all_ones_uint32]
                       else [])
                      ++ closure_effects s
                /\ closeCh s' = true
                /\ sendFlow s'
                   = match sendFlow s with
                     | Some _ => Some (mkRemoteFlowController 0 true)
                     | None => None
                     end
           else count is_EvCloseCh evs = 0%nat
                /\ count is_EvRemoveStream evs = 0%nat).
Proof.
  unfold compareAndSwapState.
  destruct (StreamState_eqb (state s) from) eqn:E; [|discriminate].
  apply StreamState_eqb_eq in E. subst from.
  destruct s as [c i st rf sf fr lw eos rs rr w cl tr].
  unfold swapped_into_active, swapped_into_closed, drain_sendFlow, cancel,
    addNumStreams, closure_effects, counter, other_counter, local.
  simpl.
  destruct (Bool.eqb (server c) (Z.land i 1 =? 0)) eqn:L;
  destruct st, to; simpl;
  repeat match goal with
         | |- context [match ?x with _ => _ end] =>
             is_var x; destruct x; simpl
         end;
  intro H; inversion H; subst; clear H; simpl; rewrite ?L;
  (split; [reflexivity|]); (split; [reflexivity|]); (split; [reflexivity|]);
  (split; [reflexivity|]); (split; [reflexivity|]);
  eexists;
  (split; [rewrite <- ?app_assoc; simpl; try reflexivity;
           symmetry; apply app_nil_r|]);
  repeat split; try reflexivity;
  unfold incrementWindow, sendFlow_cancel; cbn [window cancelled];
  rewrite wrap_int_cancel; reflexivity.
Qed.

Lemma wrap_int_small (z : Z) : - 2 ^ 63 <= z < 2 ^ 63 -> wrap_int z = z.
Proof.
  intro H. unfold wrap_int. rewrite Z.mod_small; lia.
Qed.

(** C5: the effects of a swap belong to the swap that wins, and are chosen
    by its pair of states.  A lost swap changes nothing.  A winning swap adds
    one to the counter of the opening side exactly when it goes from Idle or
    a reserved state into Open or a half-closed state, takes one off exactly
    when it goes from one of those into Closed, leaves the other counter
    alone, and performs the closure effects (closure broadcast, cancel of a
    waiting writer, send window cancelled and zeroed, consumed receive bytes
    returned, removal from the table) exactly when it enters Closed from
    another state; a swap from Closed to Closed changes nothing.  Hence over
    any interleaving of attempts on a new stream there is at most one
    increment, one while the stream is active, as many decrements as
    increments once it is Closed and none before, all on the same side, and
    one closure broadcast and one removal exactly when it is Closed. *)
Theorem swap_effects_exactly_once :
  (forall (from to : StreamState) (s : stream),
      state s <> from -> compareAndSwapState from to s = Ok (s, false))
  /\ (forall (from to : StreamState) (s s' : stream),
        compareAndSwapState from to s = Ok (s', true) ->
        state s = from /\ state s' = to
        /\ other_counter s' = other_counter s
        /\ counter s'
           = (if is_activation from to then wrap_uint32 (counter s + 1)
              else if is_deactivation from to
                   then wrap_uint32 (counter s + all_ones_uint32)
                   else counter s)
        /\ exists evs : list event,
             trace s' = trace s ++ evs
             /\ count is_increment evs
                = (if is_activation from to then 1%nat else 0%nat)
             /\ count is_decrement evs
                = (if is_deactivation from to then 1%nat else 0%nat)
             /\ (if is_first_close from to
                 then evs = (if active_state from
                             then [EvAddNumStreams (local s) all_ones_uint32]
                             else [])
                            ++ closure_effects s
                      /\ closeCh s' = true
                      /\ sendFlow s'
                         = match sendFlow s with
                           | Some _ => Some (mkRemoteFlowController 0 true)
                           | None => None
                           end
                 else count is_EvCloseCh evs = 0%nat
                      /\ count is_EvRemoveStream evs = 0%nat))
  /\ (forall s : stream,
        state s = StateClosed ->
        compareAndSwapState StateClosed StateClosed s = Ok (s, true))
  /\ (forall (l : list attempt) (s0 : stream),
        fresh s0 ->
        exists s : stream,
          run l s0 = Ok s
          /\ (count is_increment (trace s) <= 1)%nat
          /\ (pre_active_state (state s) = true ->
                count is_increment (trace s) = 0%nat)
          /\ (active_state (state s) = true ->
                count is_increment (trace s) = 1%nat)
          /\ count is_decrement (trace s)
             = (if StreamState_eqb (state s) StateClosed
                then count is_increment (trace s) else 0%nat)
          /\ count is_EvCloseCh (trace s)
             = (if StreamState_eqb (state s) StateClosed
                then 1%nat else 0%nat)
          /\ count is_EvRemoveStream (trace s)
             = (if StreamState_eqb (state s) StateClosed
                then 1%nat else 0%nat)
          /\ Forall (on_side (local s0)) (trace s)).
Proof.
  split; [exact compareAndSwapState_lost|].
  split.
  { intros from to s s' H.
    destruct (compareAndSwapState_effects from to s s' H)
      as (H1 & H2 & _ & H4 & H5 & H6).
    repeat split; assumption. }
  split; [exact compareAndSwapState_closed_closed|].
  intros l s0 F.
  destruct (run_inv l s0 (fresh_inv s0 F)) as (s & R & I & L).
  exists s. split; [exact R|].
  destruct I as [Ic Icl Irm Ipre Iact Iopen Iincs Idecs Iside].
  rewrite L in Iside.
  repeat split; try assumption.
  - intro H. now destruct (Ipre H).
  - intro H. now destruct (Iact H).
Qed.

Lemma swap_effects_exactly_once_witness :
  fresh (new_stream example_conn 1)
  /\ exists s : stream,
       run [TryTransition StateIdle true FrameHeaders false;
            TryTransition StateIdle true FrameHeaders false;
            TryClose StateOpen; TryClose StateOpen]
         (new_stream example_conn 1) = Ok s
       /\ count is_increment (trace s) = 1%nat
       /\ count is_decrement (trace s) = 1%nat
       /\ count is_EvCloseCh (trace s) = 1%nat
       /\ count is_EvRemoveStream (trace s) = 1%nat.
Proof.
  assert (F : fresh (new_stream example_conn 1))
    by (repeat split; reflexivity).
  split; [exact F|].
  destruct (proj2 (proj2 (proj2 swap_effects_exactly_once))
              [TryTransition StateIdle true FrameHeaders false;
               TryTransition StateIdle true FrameHeaders false;
               TryClose StateOpen; TryClose StateOpen]
              (new_stream example_conn 1) F)
    as (s & R & _).
  exists s. split; [exact R|].
  vm_compute in R. inversion R. repeat split; reflexivity.
Defined.

(** C7: on the winning swap of a stream that is still Idle or reserved into
    Open or a half-closed state, neither window exists beforehand; the swap
    creates the receive window at the connection's local initial window
    size, and creates the send window, at the peer's initial window size,
    exactly when the target is not HalfClosedLocal. *)
Theorem windows_created_at_activation :
  forall (l : list attempt) (s0 s : stream) (to : StreamState),
    fresh s0 -> run l s0 = Ok s ->
    pre_active_state (state s) = true -> active_state to = true ->
    0 <= Settings_InitialWindowSize (conn s) < 2 ^ 32 ->
    0 <= RemoteSettings_InitialWindowSize (conn s) < 2 ^ 32 ->
    recvFlow s = None /\ sendFlow s = None
    /\ exists s' : stream,
         compareAndSwapState (state s) to s = Ok (s', true)
         /\ recvFlow s'
            = Some (mkFlowController (Settings_InitialWindowSize (conn s))
                      (Settings_InitialWindowSize (conn s))
                      (Settings_InitialWindowSize (conn s)))
         /\ (to <> StateHalfClosedLocal ->
               sendFlow s'
               = Some (mkRemoteFlowController
                         (RemoteSettings_InitialWindowSize (conn s)) false))
         /\ (to = StateHalfClosedLocal -> sendFlow s' = None).
Proof.
  intros l s0 s to F R P A W1 W2.
  destruct (run_inv l s0 (fresh_inv s0 F)) as (s1 & R1 & I & _).
  rewrite R in R1. inversion R1; subst s1; clear R1.
  destruct (inv_pre s I P) as (_ & Hr & Hs).
  split; [exact Hr|]. split; [exact Hs|].
  unfold compareAndSwapState. rewrite StreamState_eqb_refl.
  destruct s as [c i st rf sf fr lw eos rs rr w cl tr].
  simpl in *. subst rf sf.
  unfold swapped_into_active.
  destruct st; try discriminate P; destruct to; try discriminate A; simpl;
    eexists; (split; [reflexivity|]); simpl;
    unfold incrementInitialWindow; simpl;
    rewrite ?(wrap_int_small (Settings_InitialWindowSize _)) by
      (unfold addNumStreams; destruct (local _); simpl; lia);
    rewrite ?(wrap_int_small (RemoteSettings_InitialWindowSize _)) by
      (unfold addNumStreams; destruct (local _); simpl; lia);
    (split; [unfold addNumStreams; destruct (local _); reflexivity|]);
    split; intro H; try congruence;
    unfold addNumStreams; destruct (local _); reflexivity.
Qed.

(** ** Frame conditions of the state machinery *)

Lemma flushed_frames_app (l1 l2 : list event) :
  flushed_frames (l1 ++ l2) = flushed_frames l1 ++ flushed_frames l2.
Proof.
  induction l1 as [|e l1 IH]; simpl; [reflexivity|].
  destruct e; simpl; rewrite IH; reflexivity.
Qed.

Lemma same_io_refl (s : stream) : same_io s s.
Proof.
  constructor; try reflexivity. exists []. symmetry. apply app_nil_r.
Qed.

Lemma same_io_trans (s1 s2 s3 : stream) :
  same_io s1 s2 -> same_io s2 s3 -> same_io s1 s3.
Proof.
  intros [? ? ? ? ? [e1 T1] ? ? ?] [? ? ? ? ? [e2 T2] ? ? ?].
  constructor; try congruence.
  exists (e1 ++ e2). rewrite T2, T1. now rewrite app_assoc.
Qed.

Lemma compareAndSwapState_same_io (from to : StreamState) (s s' : stream)
    (b : bool) :
  compareAndSwapState from to s = Ok (s', b) -> same_io s s'.
Proof.
  unfold compareAndSwapState.
  destruct (StreamState_eqb (state s) from) eqn:E.
  2:{ intro H; inversion H; subst. apply same_io_refl. }
  apply StreamState_eqb_eq in E. subst from.
  destruct s as [c i st rf sf fr lw eos rs rr w cl tr].
  unfold swapped_into_active, swapped_into_closed, drain_sendFlow, cancel,
    addNumStreams, local.
  simpl.
  destruct st, to; simpl;
  repeat match goal with
         | |- context [match ?x with _ => _ end] =>
             is_var x; destruct x; simpl
         end;
  intro H; inversion H; subst; clear H;
  constructor; simpl; try reflexivity;
  try (eexists; rewrite <- ?app_assoc; simpl; try reflexivity;
       symmetry; apply app_nil_r);
  rewrite ?flushed_frames_app, ?count_app; simpl;
  rewrite ?app_nil_r, ?Nat.add_0_r; reflexivity.
Qed.

Lemma compareAndSwapState_won (to : StreamState) (s s' : stream) (b : bool) :
  compareAndSwapState (state s) to s = Ok (s', b) -> b = true.
Proof.
  unfold compareAndSwapState. rewrite StreamState_eqb_refl.
  match goal with |- bind ?m _ = _ -> _ => destruct m end; simpl;
    intro H; inversion H; reflexivity.
Qed.

(** Without interference the loop returns on its first turn. *)
Lemma stream_transition_returns (fuel : nat) (recv : bool) (k : FrameType)
    (endStream : bool) (s : stream) :
  inv s ->
  exists s' out,
    stream_transition (S fuel) recv k endStream s = Ok (s', out)
    /\ inv s' /\ same_io s s' /\ local s' = local s
    /\ match transition (state s) recv k endStream with
       | (to, true) => state s' = to /\ out = (to, None)
       | (_, false) =>
           s' = s
           /\ out = (state s, Some (illegal_error (state s) recv k s))
       end.
Proof.
  intro I. simpl. unfold transition_attempt.
  destruct (transition (state s) recv k endStream) as [to ok] eqn:T.
  destruct ok; simpl.
  - destruct (compareAndSwapState_inv (state s) to s I
                (transition_moves _ _ _ _ _ T))
      as (s' & b & C & I' & L & St).
    rewrite C. simpl.
    pose proof (compareAndSwapState_won _ _ _ _ C) as ->.
    pose proof (compareAndSwapState_same_io _ _ _ _ _ C) as Io.
    specialize (St eq_refl).
    eexists; eexists; split; [reflexivity|].
    destruct (StreamState_eqb to StateClosed && is_RSTStream k);
      [destruct recv|];
      (split; [destruct I'; constructor; assumption|]);
      (split; [destruct Io; constructor; assumption|]);
      (split; [exact L|]); (split; [exact St|reflexivity]).
  - exists s, (state s, Some (illegal_error (state s) recv k s)).
    split; [reflexivity|]. split; [assumption|].
    split; [apply same_io_refl|]. repeat split; reflexivity.
Qed.

(** The calls of [transition] and [close] are runs of attempts that load
    the current state. *)
Lemma stream_transition_is_attempt (fuel : nat) (recv : bool) (k : FrameType)
    (endStream : bool) (s s' : stream) (out : StreamState * option error) :
  stream_transition (S fuel) recv k endStream s = Ok (s', out) ->
  run [TryTransition (state s) recv k endStream] s = Ok s'.
Proof.
  intro H. cbn [run attempt_step]. cbn [stream_transition] in H.
  destruct (transition_attempt (state s) recv k endStream s)
    as [[s1 [r|]]|f] eqn:T; cbn [bind] in H |- *.
  - inversion H; subst. reflexivity.
  - exfalso. unfold transition_attempt in T.
    destruct (transition (state s) recv k endStream) as [to [|]];
      cbn [negb] in T; [|discriminate T].
    destruct (compareAndSwapState (state s) to s) as [[s2 b]|f] eqn:C;
      cbn [bind] in T; [|discriminate T].
    rewrite (compareAndSwapState_won _ _ _ _ C) in T. discriminate T.
  - discriminate H.
Qed.

Lemma close_is_attempt (fuel : nat) (s s' : stream) :
  close (S fuel) s = Ok s' -> run [TryClose (state s)] s = Ok s'.
Proof.
  intro H. cbn [run attempt_step]. cbn [close] in H.
  destruct (compareAndSwapState (state s) StateClosed s)
    as [[s1 b]|f] eqn:C; cbn [bind] in H |- *; [|discriminate H].
  rewrite (compareAndSwapState_won _ _ _ _ C) in H.
  inversion H; subst. reflexivity.
Qed.

(** ** The transmit callback *)

Lemma inv_neutral (s s' : stream) :
  inv s ->
  state s' = state s -> closeCh s' = closeCh s ->
  recvFlow s' = recvFlow s -> sendFlow s' = sendFlow s ->
  local s' = local s ->
  (exists evs, trace s' = trace s ++ evs
               /\ Forall (fun e => match e with
                                   | EvQueueAdd _ | EvFlush _ | EvWerr _ => True
                                   | _ => False
                                   end) evs) ->
  inv s'.
Proof.
  intros [Ic Icl Irm Ipre Iact Iopen Iincs Idecs Iside] Hst Hc Hr Hs Hl
         (evs & Ht & Hev).
  assert (Hcount : forall p,
             (forall e, match e with
                        | EvQueueAdd _ | EvFlush _ | EvWerr _ => True
                        | _ => False
                        end -> p e = false) ->
             count p (trace s') = count p (trace s)).
  { intros p Hp. rewrite Ht, count_app.
    assert (Z0 : count p evs = 0%nat).
    { clear Ht. induction Hev as [|e l He _ IH]; [reflexivity|].
      unfold count in *. simpl. rewrite (Hp e He). exact IH. }
    rewrite Z0. apply Nat.add_0_r. }
  assert (H1 := Hcount is_EvCloseCh ltac:(intros []; simpl; tauto)).
  assert (H2 := Hcount is_EvRemoveStream ltac:(intros []; simpl; tauto)).
  assert (H3 := Hcount is_increment ltac:(intros []; simpl; tauto)).
  assert (H4 := Hcount is_decrement ltac:(intros []; simpl; tauto)).
  constructor; rewrite ?Hst, ?Hc, ?Hr, ?Hs, ?Hl, ?H1, ?H2, ?H3, ?H4;
    try assumption.
  rewrite Ht. apply Forall_app. split; [assumption|].
  clear Ht. induction Hev as [|e l He _ IH]; constructor; [|exact IH].
  destruct e; simpl in *; tauto.
Qed.

Lemma inv_recorded (f : Frame) (flushed : option error) (s : stream) :
  inv s -> inv (recorded f flushed s).
Proof.
  intro I. apply (inv_neutral s); try reflexivity; [assumption|].
  exists [EvFlush f; EvWerr flushed]. split.
  - unfold recorded. simpl. now rewrite <- app_assoc.
  - repeat constructor.
Qed.

Lemma recorded_trace (f : Frame) (flushed : option error) (s : stream) :
  trace (recorded f flushed s) = trace s ++ [EvFlush f; EvWerr flushed].
Proof. unfold recorded. simpl. now rewrite <- app_assoc. Qed.

Lemma writeTo_returns (fuel : nat) (flushed : option error) (s : stream)
    (f : Frame) :
  inv s -> Frame_ s = Some f ->
  exists (s' : stream) (err : option error),
    writeTo (S fuel) flushed s = Ok (s', err)
    /\ inv s' /\ same_io (recorded f flushed s) s'
    /\ if EndOfStream f && is_nil flushed
       then (exists st,
               stream_transition (S fuel) false (Type_ f) true
                 (recorded f flushed s) = Ok (s', (st, err)))
            /\ match transition (state s) false (Type_ f) true with
               | (to, true) => state s' = to /\ err = None
               | (_, false) =>
                   state s' = state s
                   /\ err = Some (illegal_error (state s) false (Type_ f)
                                    (recorded f flushed s))
               end
       else s' = recorded f flushed s /\ err = flushed.
Proof.
  intros I F.
  unfold writeTo. rewrite F.
  change (emit (EvWerr flushed)
            (set_sawEOS (EndOfStream f)
               (set_lastWritten (Type_ f) (emit (EvFlush f) s))))
    with (recorded f flushed s).
  change (sawEOS (recorded f flushed s)) with (EndOfStream f).
  change (lastWritten (recorded f flushed s)) with (Type_ f).
  destruct (EndOfStream f && is_nil flushed) eqn:G.
  - destruct (stream_transition_returns fuel false (Type_ f) true
                (recorded f flushed s) (inv_recorded f flushed s I))
      as (s' & out & R & I' & Io & L & M).
    rewrite R. simpl.
    exists s', (snd out). split; [reflexivity|].
    split; [exact I'|]. split; [exact Io|].
    split; [exists (fst out); now destruct out|].
    change (state (recorded f flushed s)) with (state s) in M.
    destruct (transition (state s) false (Type_ f) true) as [to [|]].
    + destruct M as [M1 M2]. subst out. split; [assumption|reflexivity].
    + destruct M as [M1 M2]. subst out s'. split; reflexivity.
  - exists (recorded f flushed s), flushed.
    split; [reflexivity|]. split; [now apply inv_recorded|].
    split; [apply same_io_refl|]. split; reflexivity.
Qed.

(** C8: for the pending frame, the callback flushes it, records its kind
    as last written and its end-of-stream flag, and sends the flush outcome
    on the completion channel, once.  If the flush succeeded and the flag
    was set it then runs the send-direction transition for that kind with
    end-of-stream, which moves the state to the rule's target or, if the
    rule refuses, returns its error; otherwise nothing more happens and the
    flush outcome is what it returns. *)
Theorem writeTo_records_delivers_advances :
  forall (fuel : nat) (flushed : option error) (s : stream) (f : Frame),
    inv s -> Frame_ s = Some f ->
    exists (s' : stream) (err : option error),
      writeTo (S fuel) flushed s = Ok (s', err)
      /\ lastWritten s' = Type_ f
      /\ sawEOS s' = EndOfStream f
      /\ (exists evs,
            trace s' = trace s ++ [EvFlush f; EvWerr flushed] ++ evs)
      /\ count is_EvWerr (trace s') = S (count is_EvWerr (trace s))
      /\ if EndOfStream f && is_nil flushed
         then (exists st,
                 stream_transition (S fuel) false (Type_ f) true
                   (recorded f flushed s) = Ok (s', (st, err)))
              /\ match transition (state s) false (Type_ f) true with
                 | (to, true) => state s' = to /\ err = None
                 | (_, false) =>
                     state s' = state s
                     /\ err = Some (illegal_error (state s) false (Type_ f)
                                      (recorded f flushed s))
                 end
         else s' = recorded f flushed s /\ err = flushed.
Proof.
  intros fuel flushed s f I F.
  destruct (writeTo_returns fuel flushed s f I F)
    as (s' & err & W & _ & Io & Rest).
  exists s', err. split; [exact W|].
  destruct Io as [Hlw Heos _ _ _ [evs Htr] _ _ Hwe].
  split; [exact Hlw|]. split; [exact Heos|].
  split; [exists evs; rewrite Htr, recorded_trace; now rewrite <- app_assoc|].
  split; [|exact Rest].
  rewrite Hwe, recorded_trace, count_app.
  change (count is_EvWerr [EvFlush f; EvWerr flushed]) with 1%nat. lia.
Qed.

Lemma writeTo_records_delivers_advances_witness :
  inv (set_Frame (OfData (mkDataFrame 5 0 true))
         (set_state StateOpen
            (set_sendFlow (Some (mkRemoteFlowController 65535 false))
               (set_recvFlow (Some (mkFlowController 65535 65535 65535))
                  (emit (EvAddNumStreams false 1)
                     (new_stream example_conn 1))))))
  /\ exists (s' : stream) (err : option error),
       writeTo 1 None
         (set_Frame (OfData (mkDataFrame 5 0 true))
            (set_state StateOpen
               (set_sendFlow (Some (mkRemoteFlowController 65535 false))
                  (set_recvFlow (Some (mkFlowController 65535 65535 65535))
                     (emit (EvAddNumStreams false 1)
                        (new_stream example_conn 1))))))
       = Ok (s', err)
       /\ state s' = StateHalfClosedLocal /\ err = None.
Proof.
  assert (I : inv (set_Frame (OfData (mkDataFrame 5 0 true))
         (set_state StateOpen
            (set_sendFlow (Some (mkRemoteFlowController 65535 false))
               (set_recvFlow (Some (mkFlowController 65535 65535 65535))
                  (emit (EvAddNumStreams false 1)
                     (new_stream example_conn 1))))))).
  { constructor; simpl; try reflexivity; try discriminate; try lia.
    - intros _. split; [reflexivity|discriminate].
    - repeat constructor. }
  split; [exact I|].
  destruct (writeTo_records_delivers_advances 0 None _
              (OfData (mkDataFrame 5 0 true)) I eq_refl)
    as (s' & err & W & _ & _ & _ & _ & _ & M).
  exists s', err. split; [exact W|]. exact M.
Defined.

(** ** The write path *)

Lemma submit_returns (E : Collaborators) (fuel j : nat) (s : stream)
    (f : Frame) :
  inv s -> Frame_ s = Some f ->
  exists s' : stream,
    submit E (S fuel) j s = Ok (s', flushOutcome E j)
    /\ inv s' /\ wio s' = wio s /\ Frame_ s' = Frame_ s
    /\ sawEOS s' = EndOfStream f
    /\ (exists evs,
          trace s'
          = trace s ++ [EvQueueAdd false; EvFlush f;
                        EvWerr (flushOutcome E j)] ++ evs)
    /\ count is_EvQueueAdd (trace s') = S (count is_EvQueueAdd (trace s))
    /\ flushed_frames (trace s') = flushed_frames (trace s) ++ [f].
Proof.
  intros I F. unfold submit.
  assert (I1 : inv (emit (EvQueueAdd false) s)).
  { apply (inv_neutral s); try reflexivity; [assumption|].
    exists [EvQueueAdd false]. split; [reflexivity|repeat constructor]. }
  destruct (writeTo_returns fuel (flushOutcome E j)
              (emit (EvQueueAdd false) s) f I1 F)
    as (s' & err & W & I' & Io & _).
  rewrite W. simpl. exists s'. split; [reflexivity|].
  destruct Io as [_ Heos Hfr Hw _ [evs Htr] Hfl Hq _].
  rewrite recorded_trace in Htr, Hfl, Hq. simpl in Htr, Hfl, Hq.
  split; [exact I'|]. split; [exact Hw|]. split; [exact Hfr|].
  split; [exact Heos|].
  split; [exists evs; rewrite Htr; now rewrite <- !app_assoc|].
  split.
  - rewrite Hq, !count_app.
    change (count is_EvQueueAdd [EvQueueAdd false]) with 1%nat.
    change (count is_EvQueueAdd [EvFlush f; EvWerr (flushOutcome E j)])
      with 0%nat. lia.
  - rewrite Hfl, !flushed_frames_app. simpl. now rewrite app_nil_r.
Qed.

Lemma set_wio_restore (s : stream) :
  wio s = true -> set_wio true (set_wio false s) = s.
Proof. destruct s; simpl; intros ->; reflexivity. Qed.

(** C9, as the code has it: a frame of kind headers, once the token is held
    and end-of-stream was not yet transmitted, is queued for the write
    dispatcher without any call of the allocator, and the write returns the
    outcome the dispatcher delivers, the token back in place; any other
    frame that is not a data frame is refused with the bad flow-control
    frame type error and nothing is queued. *)
Theorem write_headers_direct :
  forall (E : Collaborators) (fuel : nat) (s : stream),
    inv s -> wio s = true -> sawEOS s = false ->
    (forall f : Frame,
        Type_ f = FrameHeaders ->
        handed_to_dispatcher E (S fuel) f s
        /\ (forall E' : Collaborators,
               flushOutcome E' 0%nat = flushOutcome E 0%nat ->
               write E' (S fuel) TokenTaken f s
               = write E (S fuel) TokenTaken f s))
    /\ (forall (t : FrameType) (eos : bool),
          t <> FrameHeaders ->
          write E (S fuel) TokenTaken (OfKind t eos) s
          = Ok (s, Some (Errorf (MsgBadFlowControlFrameType t)))).
Proof.
  intros E fuel s I W Eos. split.
  - intros f Hf.
    assert (I1 : inv (set_Frame f (set_wio false s))).
    { apply (inv_neutral s); try reflexivity; [assumption|].
      exists []. split; [simpl; now rewrite app_nil_r|constructor]. }
    assert (Body : forall E0, write E0 (S fuel) TokenTaken f s
              = '(s1, err) <- submit E0 (S fuel) 0 (set_Frame f (set_wio false s)) ;;
                Ok (set_wio true s1, err)).
    { intro E0. unfold write, write_locked. rewrite W. simpl.
      rewrite Eos, Hf. reflexivity. }
    split.
    + destruct (submit_returns E fuel 0 _ f I1 eq_refl)
        as (s1 & Sb & _ & _ & _ & _ & (evs & Htr) & Hq & Hfl).
      exists (set_wio true s1), evs. rewrite Body, Sb. simpl in *.
      split; [reflexivity|]. split; [exact Htr|].
      split; [exact Hq|]. split; [exact Hfl|reflexivity].
    + intros E' He. rewrite !Body. unfold submit. rewrite He. reflexivity.
  - intros t eos Ht. unfold write, write_locked. rewrite W. simpl.
    rewrite Eos.
    assert (Hh : is_Headers t = false) by (destruct t; simpl; congruence).
    rewrite Hh. simpl. now rewrite (set_wio_restore s W).
Qed.

Lemma write_headers_direct_witness :
  inv (new_stream example_conn 1)
  /\ wio (new_stream example_conn 1) = true
  /\ sawEOS (new_stream example_conn 1) = false
  /\ handed_to_dispatcher (steady 1) 1 (OfKind FrameHeaders false)
       (new_stream example_conn 1).
Proof.
  assert (I : inv (new_stream example_conn 1))
    by (apply fresh_inv; repeat split; reflexivity).
  split; [exact I|]. split; [reflexivity|]. split; [reflexivity|].
  apply (write_headers_direct (steady 1) 0 (new_stream example_conn 1)
           I eq_refl eq_refl).
  reflexivity.
Defined.

(** C9, as the specification words it, fails: a reset frame is not a data frame,
    yet [write] does not queue it and returns the bad flow-control frame
    type error instead of a transmit outcome. *)
Lemma write_non_data_not_handed_over :
  Type_ (OfKind FrameRSTStream false) <> FrameData
  /\ wio (new_stream example_conn 1) = true
  /\ sawEOS (new_stream example_conn 1) = false
  /\ write (steady 1) 1 TokenTaken (OfKind FrameRSTStream false)
       (new_stream example_conn 1)
     = Ok (new_stream example_conn 1,
           Some (Errorf (MsgBadFlowControlFrameType FrameRSTStream)))
  /\ ~ handed_to_dispatcher (steady 1) 1 (OfKind FrameRSTStream false)
         (new_stream example_conn 1).
Proof.
  split; [discriminate|]. split; [reflexivity|]. split; [reflexivity|].
  split; [reflexivity|].
  intros (s' & evs & H & _). vm_compute in H. discriminate H.
Qed.

(** ** Fragmentation *)

Lemma wrap_uint8_small (z : Z) : 0 <= z < 2 ^ 8 -> wrap_uint8 z = z.
Proof. intro H. unfold wrap_uint8. apply Z.mod_small. lia. Qed.

Lemma cut_chunk_exact (data : DataFrame) (dataLen padLen allowed : Z) :
  0 <= dataLen -> 0 <= padLen <= 255 -> dataLen + padLen < 2 ^ 63 ->
  0 <= allowed <= dataLen + padLen ->
  cut_chunk data dataLen padLen allowed
  = (mkDataFrame (Z.min dataLen allowed)
       (Z.min (allowed - Z.min dataLen allowed) padLen)
       (EndStream data && (dataLen + padLen - allowed =? 0)),
     dataLen - Z.min dataLen allowed,
     padLen - Z.min (allowed - Z.min dataLen allowed) padLen,
     dataLen + padLen - allowed =? 0).
Proof.
  intros Hd Hp Hs Ha. unfold cut_chunk.
  assert (E1 : (if dataLen >? allowed then allowed else dataLen)
               = Z.min dataLen allowed).
  { destruct (dataLen >? allowed) eqn:G.
    - apply Z.gtb_lt in G. lia.
    - rewrite Z.gtb_ltb in G. apply Z.ltb_ge in G. lia. }
  rewrite E1.
  set (cl := Z.min dataLen allowed).
  assert (Hcl : 0 <= cl <= allowed /\ cl <= dataLen) by (unfold cl; lia).
  rewrite (wrap_int_small (allowed - cl)) by lia.
  assert (E2 : (if allowed - cl >? padLen then padLen else allowed - cl)
               = Z.min (allowed - cl) padLen).
  { destruct (allowed - cl >? padLen) eqn:G.
    - apply Z.gtb_lt in G. lia.
    - rewrite Z.gtb_ltb in G. apply Z.ltb_ge in G. lia. }
  rewrite E2.
  set (pd := Z.min (allowed - cl) padLen).
  assert (Hpd : 0 <= pd <= padLen /\ cl + pd = allowed) by (unfold pd, cl; lia).
  rewrite (wrap_int_small (dataLen - cl)) by lia.
  rewrite (wrap_int_small (padLen - pd)) by lia.
  rewrite (wrap_int_small (dataLen - cl + (padLen - pd))) by lia.
  rewrite (wrap_uint8_small pd) by lia.
  replace (dataLen - cl + (padLen - pd)) with (dataLen + padLen - allowed)
    by lia.
  reflexivity.
Qed.

Lemma inv_set_Frame (f : Frame) (s : stream) : inv s -> inv (set_Frame f s).
Proof.
  intro I. apply (inv_neutral s); try reflexivity; [assumption|].
  exists []. split; [simpl; now rewrite app_nil_r|constructor].
Qed.

Lemma write_again_returns (E : Collaborators) (data : DataFrame) :
  grants_progress E ->
  forall (fuel k j : nat) (dataLen padLen allowed : Z) (s : stream),
    inv s ->
    0 <= dataLen -> 0 <= padLen <= 255 -> dataLen + padLen < 2 ^ 63 ->
    1 <= allowed <= dataLen + padLen ->
    (Z.to_nat (dataLen + padLen) <= fuel)%nat ->
    exists (s' : stream) (chunks : list DataFrame) (n : nat),
      write_again E fuel k j data dataLen padLen allowed s
      = Ok (s', flushOutcome E (j + n))
      /\ length chunks = S n
      /\ inv s' /\ wio s' = wio s
      /\ flushed_frames (trace s')
         = flushed_frames (trace s) ++ map OfData chunks
      /\ count is_EvQueueAdd (trace s')
         = (count is_EvQueueAdd (trace s) + length chunks)%nat
      /\ chunks_cut E (EndStream data) k j dataLen padLen allowed chunks.
Proof.
  intro G.
  induction fuel as [|fuel IH]; intros k j dataLen padLen allowed s I Hd Hp Hs Ha Hf.
  { exfalso. lia. }
  cbn [write_again].
  rewrite (cut_chunk_exact data dataLen padLen allowed) by lia.
  set (c := mkDataFrame (Z.min dataLen allowed)
              (Z.min (allowed - Z.min dataLen allowed) padLen)
              (EndStream data && (dataLen + padLen - allowed =? 0))).
  destruct (submit_returns E fuel j (set_Frame (OfData c) s) (OfData c)
              (inv_set_Frame _ s I) eq_refl)
    as (s1 & Sb & I1 & W1 & _ & _ & _ & Q1 & F1).
  rewrite Sb. cbn [bind].
  assert (Hc1 : DataLen c = Z.min dataLen allowed) by reflexivity.
  assert (Hc2 : PadLen c = Z.min (allowed - DataLen c) padLen) by reflexivity.
  assert (Hrem : dataLen - DataLen c + (padLen - PadLen c)
                 = dataLen + padLen - allowed) by (rewrite Hc2, Hc1; lia).
  destruct (dataLen + padLen - allowed =? 0) eqn:Last.
  - (* the last chunk *)
    cbn [orb].
    exists s1, [c], 0%nat. rewrite Nat.add_0_r.
    split; [reflexivity|]. split; [reflexivity|].
    split; [exact I1|]. split; [exact W1|].
    split; [exact F1|]. split; [simpl in *; lia|].
    cbn [chunks_cut]. split; [exact Hc1|]. split; [exact Hc2|].
    rewrite Hrem, Last. split; [|reflexivity].
    unfold c. cbn [EndStream]. rewrite ?Last. apply andb_true_r.
  - cbn [orb].
    apply Z.eqb_neq in Last.
    destruct (flushOutcome E j) as [e|] eqn:Fl; cbn [is_nil negb].
    + (* the transmit failed *)
      exists s1, [c], 0%nat. rewrite Nat.add_0_r, Fl.
      split; [reflexivity|]. split; [reflexivity|].
      split; [exact I1|]. split; [exact W1|].
      split; [exact F1|]. split; [simpl in *; lia|].
      cbn [chunks_cut]. split; [exact Hc1|]. split; [exact Hc2|].
      rewrite Hrem. apply Z.eqb_neq in Last. rewrite Last, Fl.
      split; [|reflexivity].
      unfold c. cbn [EndStream]. rewrite ?Last. apply andb_false_r.
    + (* another round *)
      set (d' := dataLen - Z.min dataLen allowed).
      set (p' := padLen - Z.min (allowed - Z.min dataLen allowed) padLen).
      assert (Hd' : 0 <= d') by (unfold d'; lia).
      assert (Hp' : 0 <= p' <= 255) by (unfold p'; lia).
      assert (Hr' : d' + p' = dataLen + padLen - allowed)
        by (unfold d', p'; lia).
      rewrite (wrap_int_small (d' + p')) by lia.
      destruct (G k (d' + p') ltac:(lia)) as [Ge Gg].
      destruct (allocateBytes E k (d' + p')) as [allowed' e'] eqn:Al.
      cbn [fst snd] in Ge, Gg. subst e'.
      destruct (IH (S k) (S j) d' p' allowed' s1 I1 Hd' Hp' ltac:(lia)
                  ltac:(lia) ltac:(lia))
        as (s' & chunks & n & R & Len & I' & W' & F' & Q' & C').
      exists s', (c :: chunks), (S n).
      rewrite R. replace (j + S n)%nat with (S j + n)%nat by lia.
      split; [reflexivity|]. split; [simpl; now rewrite Len|].
      split; [exact I'|]. split; [rewrite W', W1; reflexivity|].
      split; [rewrite F', F1; simpl; now rewrite <- app_assoc|].
      split; [simpl; simpl in Q1; lia|].
      cbn [chunks_cut]. split; [exact Hc1|]. split; [exact Hc2|].
      rewrite Hrem. apply Z.eqb_neq in Last. rewrite Last, Fl.
      cbn [is_nil].
      split; [unfold c; cbn [EndStream]; rewrite ?Last; apply andb_false_r|].
      change (dataLen - DataLen c) with d'.
      change (padLen - PadLen c) with p'.
      rewrite <- Hr', Al. exact C'.
Qed.

Lemma write_data_returns (E : Collaborators) (data : DataFrame) (fuel : nat)
    (s : stream) :
  grants_progress E ->
  inv s -> wio s = true -> sawEOS s = false ->
  0 <= DataLen data -> 0 <= PadLen data <= 255 ->
  DataLen data + PadLen data < 2 ^ 63 ->
  (Z.to_nat (DataLen data + PadLen data) < fuel)%nat ->
  exists (s' : stream) (chunks : list DataFrame) (n : nat),
    write E fuel TokenTaken (OfData data) s = Ok (s', flushOutcome E n)
    /\ length chunks = S n
    /\ inv s' /\ wio s' = true
    /\ flushed_frames (trace s')
       = flushed_frames (trace s) ++ map OfData chunks
    /\ count is_EvQueueAdd (trace s')
       = (count is_EvQueueAdd (trace s) + length chunks)%nat
    /\ chunks_cut E (EndStream data) 1 0 (DataLen data) (PadLen data)
         (fst (allocateBytes E 0 (DataLen data + PadLen data))) chunks.
Proof.
  intros G I W Eos Hd Hp Hs Hf.
  unfold write, write_locked. rewrite W. cbn [sawEOS set_wio].
  rewrite Eos. cbn [Type_ is_Headers].
  rewrite (wrap_int_small (DataLen data + PadLen data)) by lia.
  destruct (G 0%nat (DataLen data + PadLen data) ltac:(lia)) as [Ge Gg].
  destruct (allocateBytes E 0 (DataLen data + PadLen data))
    as [allowed e] eqn:Al.
  cbn [fst snd] in Ge, Gg |- *. subst e.
  assert (I0 : inv (set_wio false s)).
  { apply (inv_neutral s); try reflexivity; [assumption|].
    exists []. split; [simpl; now rewrite app_nil_r|constructor]. }
  destruct (allowed =? DataLen data + PadLen data) eqn:Full.
  - (* the whole frame goes out as it is *)
    apply Z.eqb_eq in Full.
    destruct fuel as [|fuel]; [lia|].
    destruct (submit_returns E fuel 0 (set_Frame (OfData data)
                                          (set_wio false s))
                (OfData data) (inv_set_Frame _ _ I0) eq_refl)
      as (s1 & Sb & I1 & W1 & _ & _ & _ & Q1 & F1).
    rewrite Sb. cbn [bind].
    exists (set_wio true s1), [data], 0%nat.
    split; [reflexivity|]. split; [reflexivity|].
    split.
    { apply (inv_neutral s1); try reflexivity; [assumption|].
      exists []. split; [simpl; now rewrite app_nil_r|constructor]. }
    split; [reflexivity|].
    split; [exact F1|]. split; [simpl in *; lia|].
    cbn [chunks_cut].
    split; [lia|]. split; [lia|].
    replace (DataLen data - DataLen data + (PadLen data - PadLen data))
      with 0 by lia.
    split; reflexivity.
  - apply Z.eqb_neq in Full.
    destruct (write_again_returns E data G fuel 1 0 (DataLen data)
                (PadLen data) allowed (set_wio false s) I0 Hd Hp Hs
                ltac:(lia) ltac:(lia))
      as (s' & chunks & n & R & Len & I' & W' & F' & Q' & C').
    rewrite R. cbn [bind].
    exists (set_wio true s'), chunks, n.
    split; [reflexivity|]. split; [exact Len|].
    split.
    { apply (inv_neutral s'); try reflexivity; [assumption|].
      exists []. split; [simpl; now rewrite app_nil_r|constructor]. }
    split; [reflexivity|]. split; [exact F'|]. split; [exact Q'|exact C'].
Qed.

(** When no transmit fails, the chunks carry the whole payload and the
    whole padding. *)
Lemma chunks_cut_complete (E : Collaborators) (eos : bool) :
  grants_progress E ->
  forall (chunks : list DataFrame) (k j : nat) (dataLen padLen allowed : Z),
    0 <= dataLen -> 0 <= padLen -> 0 <= allowed <= dataLen + padLen ->
    (forall i : nat, (j <= i < j + length chunks)%nat ->
                     flushOutcome E i = None) ->
    chunks_cut E eos k j dataLen padLen allowed chunks ->
    sumZ (map DataLen chunks) = dataLen
    /\ sumZ (map PadLen chunks) = padLen.
Proof.
  intro G.
  induction chunks as [|c rest IH];
    intros k j dataLen padLen allowed Hd Hp Ha Hfl C; [destruct C|].
  cbn [chunks_cut] in C. destruct C as (C1 & C2 & C3).
  cbn [map sumZ fold_right].
  destruct (dataLen - DataLen c + (padLen - PadLen c) =? 0) eqn:Z0.
  - apply Z.eqb_eq in Z0. destruct C3 as [_ ->]. cbn. lia.
  - destruct C3 as [_ C3].
    rewrite (Hfl j) in C3 by (cbn [length]; lia). cbn [is_nil] in C3.
    apply Z.eqb_neq in Z0.
    assert (Hd' : 0 <= dataLen - DataLen c) by lia.
    assert (Hp' : 0 <= padLen - PadLen c) by lia.
    destruct (G k (dataLen - DataLen c + (padLen - PadLen c)) ltac:(lia))
      as [_ Gg].
    assert (Ha' : 0 <= fst (allocateBytes E k
                              (dataLen - DataLen c + (padLen - PadLen c)))
                  <= dataLen - DataLen c + (padLen - PadLen c)) by lia.
    assert (Hfl' : forall i : nat, (S j <= i < S j + length rest)%nat ->
                                   flushOutcome E i = None)
      by (intros i Hi; apply Hfl; cbn [length]; lia).
    destruct (IH (S k) (S j) _ _ _ Hd' Hp' Ha' Hfl' C3) as [S1 S2].
    fold (sumZ (map DataLen rest)). fold (sumZ (map PadLen rest)). lia.
Qed.

Lemma grants_progress_steady (K : Z) : 1 <= K -> grants_progress (steady K).
Proof.
  intros HK k wanted Hw. unfold steady. cbn [allocateBytes fst snd].
  split; [reflexivity|lia].
Qed.

Lemma new_stream_inv (c : Conn) (i : Z) : inv (new_stream c i).
Proof. apply fresh_inv. repeat split; reflexivity. Qed.

(** C10: with an allocator that never fails and grants between one byte
    and what is left, a data write returns: given fuel beyond the number of
    bytes to send, it ends with the outcome of the last chunk it submitted,
    and if no transmit failed the chunks carry the whole payload and
    padding.  Each round under such a grant leaves exactly that many bytes
    fewer.  Under a grant of zero bytes the round cuts a chunk with no
    payload and no padding, submits it, leaves the remainder as it was and,
    unless the transmit failed, asks the allocator again for the same
    amount. *)
Theorem fragmentation_loop_terminates :
  (forall (E : Collaborators) (data : DataFrame) (fuel : nat) (s : stream),
      grants_progress E ->
      inv s -> wio s = true -> sawEOS s = false ->
      0 <= DataLen data -> 0 <= PadLen data <= 255 ->
      DataLen data + PadLen data < 2 ^ 63 ->
      (Z.to_nat (DataLen data + PadLen data) < fuel)%nat ->
      exists (s' : stream) (chunks : list DataFrame) (n : nat),
        write E fuel TokenTaken (OfData data) s = Ok (s', flushOutcome E n)
        /\ length chunks = S n
        /\ flushed_frames (trace s')
           = flushed_frames (trace s) ++ map OfData chunks
        /\ ((forall i : nat, (i <= n)%nat -> flushOutcome E i = None) ->
            sumZ (map DataLen chunks) = DataLen data
            /\ sumZ (map PadLen chunks) = PadLen data))
  /\ (forall (data : DataFrame) (dataLen padLen allowed : Z),
        0 <= dataLen -> 0 <= padLen <= 255 -> dataLen + padLen < 2 ^ 63 ->
        1 <= allowed <= dataLen + padLen ->
        exists (c : DataFrame) (dataLen' padLen' : Z) (lastFrame : bool),
          cut_chunk data dataLen padLen allowed
          = (c, dataLen', padLen', lastFrame)
          /\ 0 <= dataLen' /\ 0 <= padLen'
          /\ DataLen c + PadLen c = allowed
          /\ dataLen' + padLen' = dataLen + padLen - allowed
          /\ dataLen' + padLen' < dataLen + padLen
          /\ lastFrame = (dataLen' + padLen' =? 0))
  /\ (forall (E : Collaborators) (fuel k j : nat) (data : DataFrame)
             (dataLen padLen : Z) (s : stream),
        0 <= dataLen -> 0 <= padLen <= 255 -> dataLen + padLen < 2 ^ 63 ->
        1 <= dataLen + padLen ->
        inv s ->
        cut_chunk data dataLen padLen 0
        = (mkDataFrame 0 0 false, dataLen, padLen, false)
        /\ exists s1 : stream,
             submit E (S fuel) j (set_Frame (OfData (mkDataFrame 0 0 false)) s)
             = Ok (s1, flushOutcome E j)
             /\ flushed_frames (trace s1)
                = flushed_frames (trace s) ++ [OfData (mkDataFrame 0 0 false)]
             /\ write_again E (S fuel) k j data dataLen padLen 0 s
                = if is_nil (flushOutcome E j)
                  then
                    let '(allowed, err) :=
                      allocateBytes E k (dataLen + padLen) in
                    match err with
                    | Some e => Ok (s1, Some e)
                    | None =>
                        write_again E fuel (S k) (S j) data dataLen padLen
                          allowed s1
                    end
                  else Ok (s1, flushOutcome E j)).
Proof.
  split; [|split].
  - intros E data fuel s G I W Eos Hd Hp Hs Hf.
    destruct (write_data_returns E data fuel s G I W Eos Hd Hp Hs Hf)
      as (s' & chunks & n & R & Len & _ & _ & F' & _ & C').
    exists s', chunks, n.
    split; [exact R|]. split; [exact Len|]. split; [exact F'|].
    intro Hfl.
    destruct (G 0%nat (DataLen data + PadLen data) ltac:(lia)) as [_ Gg].
    apply (chunks_cut_complete E (EndStream data) G chunks 1 0
             (DataLen data) (PadLen data)
             (fst (allocateBytes E 0 (DataLen data + PadLen data))));
      try lia; [|exact C'].
    intros i Hi. apply Hfl. lia.
  - intros data dataLen padLen allowed Hd Hp Hs Ha.
    rewrite (cut_chunk_exact data dataLen padLen allowed) by lia.
    do 4 eexists. split; [reflexivity|].
    cbn [DataLen PadLen].
    repeat split; lia.
  - intros E fuel k j data dataLen padLen s Hd Hp Hs Hr I.
    assert (Cut : cut_chunk data dataLen padLen 0
                  = (mkDataFrame 0 0 false, dataLen, padLen, false)).
    { rewrite (cut_chunk_exact data dataLen padLen 0) by lia.
      assert (Hz : (dataLen + padLen - 0 =? 0) = false)
        by (apply Z.eqb_neq; lia).
      rewrite Hz, andb_false_r.
      replace (Z.min dataLen 0) with 0 by lia.
      replace (Z.min (0 - 0) padLen) with 0 by lia.
      now rewrite !Z.sub_0_r. }
    split; [exact Cut|].
    destruct (submit_returns E fuel j
                (set_Frame (OfData (mkDataFrame 0 0 false)) s)
                (OfData (mkDataFrame 0 0 false)) (inv_set_Frame _ s I)
                eq_refl)
      as (s1 & Sb & _ & _ & _ & _ & _ & _ & F1).
    exists s1. split; [exact Sb|]. split; [exact F1|].
    cbn [write_again]. rewrite Cut, Sb. cbn [bind orb].
    rewrite (wrap_int_small (dataLen + padLen)) by lia.
    destruct (flushOutcome E j); reflexivity.
Qed.

Lemma fragmentation_loop_terminates_witness :
  grants_progress (steady 2)
  /\ inv (new_stream example_conn 1)
  /\ exists (s' : stream) (chunks : list DataFrame) (n : nat),
       write (steady 2) 6 TokenTaken (OfData (mkDataFrame 4 1 false))
         (new_stream example_conn 1)
       = Ok (s', flushOutcome (steady 2) n)
       /\ length chunks = S n
       /\ flushed_frames (trace s')
          = flushed_frames (trace (new_stream example_conn 1))
            ++ map OfData chunks.
Proof.
  assert (G : grants_progress (steady 2))
    by (apply grants_progress_steady; lia).
  split; [exact G|]. split; [apply new_stream_inv|].
  destruct (proj1 fragmentation_loop_terminates (steady 2)
              (mkDataFrame 4 1 false) 6%nat (new_stream example_conn 1)
              G (new_stream_inv example_conn 1) eq_refl eq_refl)
    as (s' & chunks & n & R & Len & F' & _);
    cbn [DataLen PadLen]; try lia.
  exists s', chunks, n. repeat split; assumption.
Defined.

(** Under the steady allocator: the number of chunks, the place of the
    end-of-stream flag, and how each chunk splits its budget. *)
Lemma chunks_cut_steady (K : Z) (eos : bool) :
  1 <= K ->
  forall (chunks : list DataFrame) (k j : nat) (d p : Z),
    0 <= d -> 0 <= p ->
    chunks_cut (steady K) eos k j d p (Z.min (d + p) K) chunks ->
    Z.of_nat (length chunks) = Z.max 1 ((d + p + K - 1) / K)
    /\ (exists init last,
          chunks = init ++ [last]
          /\ Forall (fun c => EndStream c = false) init
          /\ EndStream last = eos)
    /\ (forall l1 c l2,
          chunks = l1 ++ c :: l2 ->
          let g := Z.min (d + p - sumZ (map DataLen l1)
                          - sumZ (map PadLen l1)) K in
          DataLen c = Z.min (d - sumZ (map DataLen l1)) g
          /\ PadLen c = Z.min (g - DataLen c) (p - sumZ (map PadLen l1))
          /\ 0 <= PadLen c <= p
          /\ DataLen c + PadLen c <= g).
Proof.
  intro HK.
  induction chunks as [|c rest IH]; intros k j d p Hd Hp C; [destruct C|].
  cbn [chunks_cut] in C. destruct C as (C1 & C2 & C3).
  assert (Hsum : DataLen c + PadLen c = Z.min (d + p) K) by lia.
  destruct (d - DataLen c + (p - PadLen c) =? 0) eqn:Z0.
  - apply Z.eqb_eq in Z0. destruct C3 as [Ce ->].
    split; [|split].
    + assert (Hq : (d + p + K - 1) / K < 2)
        by (apply Z.div_lt_upper_bound; lia).
      cbn [length]. lia.
    + exists [], c. repeat split; [constructor|exact Ce].
    + intros l1 c' l2 Hl.
      destruct l1 as [|x l1].
      * cbn in Hl. inversion Hl; subst c' l2. cbn. 
        rewrite !Z.sub_0_r. lia.
      * exfalso. cbn in Hl. inversion Hl as [[Hx Hl']].
        destruct l1; discriminate Hl'.
  - destruct C3 as [Ce C3].
    cbn [steady flushOutcome is_nil allocateBytes fst] in C3.
    apply Z.eqb_neq in Z0.
    assert (HaK : Z.min (d + p) K = K) by lia.
    destruct (IH (S k) (S j) (d - DataLen c) (p - PadLen c)
                ltac:(lia) ltac:(lia) C3)
      as (L & (init & last & -> & Hi & Hl) & Sp).
    split; [|split].
    + cbn [length]. rewrite Nat2Z.inj_succ, L.
      replace (d - DataLen c + (p - PadLen c) + K - 1) with (d + p - 1)
        by lia.
      replace (d + p + K - 1) with (d + p - 1 + 1 * K) by lia.
      rewrite Z.div_add by lia.
      assert (Hq : 1 <= (d + p - 1) / K)
        by (apply Z.div_le_lower_bound; lia).
      lia.
    + exists (c :: init), last. split; [reflexivity|].
      split; [constructor; assumption|exact Hl].
    + intros l1 c' l2 Hsplit.
      destruct l1 as [|x l1].
      * cbn in Hsplit. inversion Hsplit; subst c'. cbn.
        rewrite !Z.sub_0_r. lia.
      * cbn in Hsplit. inversion Hsplit as [[Hx Hrest]]. subst x.
        specialize (Sp l1 c' l2 Hrest). cbn zeta in Sp.
        cbn [map sumZ fold_right].
        fold (sumZ (map DataLen l1)). fold (sumZ (map PadLen l1)).
        replace (d - (DataLen c + sumZ (map DataLen l1)))
          with (d - DataLen c - sumZ (map DataLen l1)) by lia.
        replace (p - (PadLen c + sumZ (map PadLen l1)))
          with (p - PadLen c - sumZ (map PadLen l1)) by lia.
        replace (d + p - (DataLen c + sumZ (map DataLen l1))
                 - (PadLen c + sumZ (map PadLen l1)))
          with (d - DataLen c + (p - PadLen c) - sumZ (map DataLen l1)
                - sumZ (map PadLen l1)) by lia.
        cbn zeta. lia.
Qed.

(** C4, as the code has it: under the allocator that grants
    [min(remaining, K)], [K >= 1], and with every transmit succeeding, a
    data write of [len] payload and [pad] padding bytes returns without
    error having transmitted [max(1, ceil((len+pad)/K))] chunks, one per
    unit queued: a frame with nothing to carry still goes out as one chunk.
    The payload lengths sum to [len] and the padding lengths to [pad]; each
    chunk gives its budget, the smaller of [K] and what is left, to payload
    first and to padding only what remains of it, never more padding than
    [pad]; and the end-of-stream flag of the frame sits on the last chunk,
    every earlier chunk carrying none. *)
Theorem write_fragments_data :
  forall (K len pad : Z) (eos : bool) (fuel : nat) (s : stream),
    inv s -> wio s = true -> sawEOS s = false ->
    1 <= K -> 0 <= len -> 0 <= pad <= 255 -> len + pad < 2 ^ 63 ->
    (Z.to_nat (len + pad) < fuel)%nat ->
    exists (s' : stream) (chunks : list DataFrame),
      write (steady K) fuel TokenTaken (OfData (mkDataFrame len pad eos)) s
      = Ok (s', None)
      /\ flushed_frames (trace s')
         = flushed_frames (trace s) ++ map OfData chunks
      /\ count is_EvQueueAdd (trace s')
         = (count is_EvQueueAdd (trace s) + length chunks)%nat
      /\ Z.of_nat (length chunks) = Z.max 1 ((len + pad + K - 1) / K)
      /\ sumZ (map DataLen chunks) = len
      /\ sumZ (map PadLen chunks) = pad
      /\ (forall l1 c l2,
            chunks = l1 ++ c :: l2 ->
            let g := Z.min (len + pad - sumZ (map DataLen l1)
                            - sumZ (map PadLen l1)) K in
            DataLen c = Z.min (len - sumZ (map DataLen l1)) g
            /\ PadLen c = Z.min (g - DataLen c) (pad - sumZ (map PadLen l1))
            /\ 0 <= PadLen c <= pad
            /\ DataLen c + PadLen c <= g)
      /\ (exists init last,
            chunks = init ++ [last]
            /\ Forall (fun c => EndStream c = false) init
            /\ EndStream last = eos).
Proof.
  intros K len pad eos fuel s I W Eos HK Hl Hp Hs Hf.
  pose proof (grants_progress_steady K HK) as G.
  destruct (write_data_returns (steady K) (mkDataFrame len pad eos) fuel s
              G I W Eos Hl Hp Hs Hf)
    as (s' & chunks & n & R & Len & _ & _ & F' & Q' & C').
  cbn [DataLen PadLen EndStream steady flushOutcome allocateBytes fst]
    in R, C'.
  exists s', chunks. split; [exact R|]. split; [exact F'|].
  split; [exact Q'|].
  destruct (chunks_cut_steady K eos HK chunks 1 0 len pad Hl ltac:(lia) C')
    as (L & Hlast & Hsplit).
  destruct (chunks_cut_complete (steady K) eos G chunks 1 0 len pad
              (Z.min (len + pad) K) Hl ltac:(lia) ltac:(lia)
              ltac:(reflexivity) C')
    as (S1 & S2).
  split; [exact L|]. split; [exact S1|]. split; [exact S2|].
  split; [exact Hsplit|exact Hlast].
Qed.

Lemma write_fragments_data_witness :
  inv (new_stream example_conn 1)
  /\ exists (s' : stream) (chunks : list DataFrame),
       write (steady 3) 9 TokenTaken (OfData (mkDataFrame 5 2 true))
         (new_stream example_conn 1) = Ok (s', None)
       /\ flushed_frames (trace s') = map OfData chunks
       /\ Z.of_nat (length chunks) = 3
       /\ sumZ (map DataLen chunks) = 5
       /\ sumZ (map PadLen chunks) = 2.
Proof.
  split; [apply new_stream_inv|].
  destruct (write_fragments_data 3 5 2 true 9%nat (new_stream example_conn 1)
              (new_stream_inv example_conn 1) eq_refl eq_refl)
    as (s' & chunks & R & F' & _ & L & S1 & S2 & _); try lia.
  exists s', chunks. repeat split; assumption.
Defined.

(** C4, as the specification words it, fails for a frame with nothing to
    carry: one chunk is transmitted where the formula counts
    [ceil(0/K) = 0]. *)
Lemma empty_data_frame_is_one_chunk :
  exists s' : stream,
    write (steady 1) 1 TokenTaken (OfData (mkDataFrame 0 0 false))
      (new_stream example_conn 1) = Ok (s', None)
    /\ flushed_frames (trace s') = [OfData (mkDataFrame 0 0 false)]
    /\ (0 + 0 + 1 - 1) / 1 = 0
    /\ Z.of_nat (length (flushed_frames (trace s'))) <> (0 + 0 + 1 - 1) / 1.
Proof.
  eexists. split; [vm_compute; reflexivity|].
  split; [reflexivity|]. split; [reflexivity|]. discriminate.
Qed.

Lemma windows_created_at_activation_witness :
  fresh (new_stream example_conn 1)
  /\ run [TryTransition StateIdle false FramePushPromise false]
       (new_stream example_conn 1)
     = Ok (emit EvAddStream
             (set_state StateReservedLocal (new_stream example_conn 1)))
  /\ exists s' : stream,
       compareAndSwapState StateReservedLocal StateHalfClosedRemote
         (emit EvAddStream
            (set_state StateReservedLocal (new_stream example_conn 1)))
       = Ok (s', true)
       /\ recvFlow s' = Some (mkFlowController 65535 65535 65535)
       /\ sendFlow s' = Some (mkRemoteFlowController 65535 false).
Proof.
  assert (F : fresh (new_stream example_conn 1))
    by (repeat split; reflexivity).
  split; [exact F|]. split; [reflexivity|].
  destruct (windows_created_at_activation
              [TryTransition StateIdle false FramePushPromise false]
              (new_stream example_conn 1)
              (emit EvAddStream
                 (set_state StateReservedLocal (new_stream example_conn 1)))
              StateHalfClosedRemote F eq_refl eq_refl eq_refl)
    as (_ & _ & s' & C & R & Sf & _); [cbn; lia|cbn; lia|].
  exists s'. split; [exact C|]. split; [exact R|].
  apply Sf. discriminate.
Defined.

(** ** Worked scenarios *)

(** A stream opened by received headers, finished locally by one data
    write with end-of-stream under a full grant, then finished by the peer:
    Open, HalfClosedLocal, Closed; one chunk on the wire; the peer's
    active-stream counter up by one while active and back at the end; the
    stream removed from the table once. *)
Example scenario_full_life :
  exists s1 s2 s3 : stream,
    stream_transition 1 true FrameHeaders false (new_stream example_conn 1)
    = Ok (s1, (StateOpen, None))
    /\ remote_numStreams (conn s1) = 1
    /\ write (steady 100) 2 TokenTaken (OfData (mkDataFrame 10 0 true)) s1
       = Ok (s2, None)
    /\ state s2 = StateHalfClosedLocal
    /\ flushed_frames (trace s2) = [OfData (mkDataFrame 10 0 true)]
    /\ stream_transition 1 true FrameData true s2
       = Ok (s3, (StateClosed, None))
    /\ remote_numStreams (conn s3) = 0
    /\ numStreams (conn s3) = 0
    /\ count is_EvRemoveStream (trace s3) = 1%nat
    /\ closeCh s3 = true.
Proof.
  do 3 eexists.
  split; [vm_compute; reflexivity|]. split; [reflexivity|].
  split; [vm_compute; reflexivity|]. split; [reflexivity|].
  split; [reflexivity|].
  split; [vm_compute; reflexivity|]. repeat split; reflexivity.
Qed.

(** After a received reset, a received data frame is a stream error of kind
    STREAM_CLOSED, not a connection error. *)
Example scenario_frame_after_reset :
  exists (s1 s2 : stream) (e : error),
    stream_transition 1 true FrameHeaders false (new_stream example_conn 1)
    = Ok (s1, (StateOpen, None))
    /\ stream_transition 1 true FrameRSTStream false s1
       = Ok (s2, (StateClosed, None))
    /\ resetReceived s2 = true
    /\ stream_transition 1 true FrameData false s2
       = Ok (s2, (StateClosed, Some e))
    /\ SpecErrors.classify e
       = Some (SpecErrors.StreamErrorOf ErrCodeStreamClosed).
Proof.
  do 3 eexists.
  split; [vm_compute; reflexivity|].
  split; [vm_compute; reflexivity|].
  split; [reflexivity|].
  split; [vm_compute; reflexivity|]. reflexivity.
Qed.

(** Four chunks of at most three bytes for seven payload and three padding
    bytes: payload first, the flag on the last chunk only. *)
Example scenario_fragments :
  exists s' : stream,
    write (steady 3) 5 TokenTaken (OfData (mkDataFrame 7 3 true))
      (new_stream example_conn 1) = Ok (s', None)
    /\ flushed_frames (trace s')
       = [OfData (mkDataFrame 3 0 false); OfData (mkDataFrame 3 0 false);
          OfData (mkDataFrame 1 2 false); OfData (mkDataFrame 0 1 true)].
Proof.
  eexists. split; [vm_compute; reflexivity|reflexivity].
Qed.

(** * Further properties of the code *)

(** ** The pure rule *)

(** X1: a legal transition never moves a stream backwards in its life
    (Idle, reserved, Open, half-closed, Closed), and when it stays at the
    same stage it stays in the same state. *)
Theorem transition_never_backwards :
  forall (from to : StreamState) (recv : bool) (k : FrameType)
         (endStream : bool),
    transition from recv k endStream = (to, true) ->
    (rank from <= rank to)%nat /\ (rank from = rank to -> to = from).
Proof.
  intros from to recv k endStream H.
  destruct from, recv, k, endStream; simpl in H; inversion H; subst;
    simpl; split; (lia || congruence || discriminate).
Qed.

Lemma transition_never_backwards_witness :
  transition StateReservedLocal false FrameHeaders true = (StateClosed, true)
  /\ (rank StateReservedLocal <= rank StateClosed)%nat.
Proof.
  split; [reflexivity|].
  apply (transition_never_backwards StateReservedLocal StateClosed false
           FrameHeaders true).
  reflexivity.
Defined.

(** X2: a reset frame is refused in Idle and in Closed and, in every other
    state, in either direction and whatever the end-of-stream flag, closes
    the stream. *)
Theorem reset_frame_closes :
  forall (from : StreamState) (recv endStream : bool),
    transition from recv FrameRSTStream endStream
    = match from with
      | StateIdle | StateClosed => (from, false)
      | _ => (StateClosed, true)
      end.
Proof. intros from recv endStream. destruct from, recv, endStream; reflexivity. Qed.

(** X3: a priority frame is legal in every state and both directions;
    without end-of-stream it leaves the state as it is, and with the flag
    set the overlay still applies to it: Open becomes half-closed and a
    half-closed state becomes Closed. *)
Theorem priority_frame_always_legal :
  forall (from : StreamState) (recv endStream : bool),
    transition from recv FramePriority endStream
    = ((if endStream then end_stream_overlay recv from else from), true).
Proof. intros from recv endStream. destruct from, recv, endStream; reflexivity. Qed.

(** X4: the states in which a data frame may be received are exactly the
    readable ones, and the states in which one may be sent exactly the
    writable ones. *)
Theorem data_frame_legal_iff_readable_writable :
  forall (s : stream) (endStream : bool),
    snd (transition (state s) true FrameData endStream) = readable s
    /\ snd (transition (state s) false FrameData endStream) = writable s.
Proof.
  intros s endStream. unfold readable, writable.
  destruct (state s), endStream; split; reflexivity.
Qed.

(** X5: after a legal frame with end-of-stream the side that sent it is
    finished: the stream is no longer readable after a receive, no longer
    writable after a send. *)
Theorem end_of_stream_finishes_the_side :
  forall (s : stream) (to : StreamState) (recv : bool) (k : FrameType),
    transition (state s) recv k true = (to, true) ->
    (if recv then readable (set_state to s) else writable (set_state to s))
    = false.
Proof.
  intros s to recv k H. unfold readable, writable. cbn [state set_state].
  destruct (state s), recv, k; simpl in H; inversion H; reflexivity.
Qed.

Lemma end_of_stream_finishes_the_side_witness :
  transition (state (set_state StateOpen (new_stream example_conn 1))) true
    FrameData true = (StateHalfClosedRemote, true)
  /\ readable (set_state StateHalfClosedRemote
                 (set_state StateOpen (new_stream example_conn 1))) = false.
Proof.
  split; [reflexivity|].
  apply (end_of_stream_finishes_the_side
           (set_state StateOpen (new_stream example_conn 1))
           StateHalfClosedRemote true FrameData).
  reflexivity.
Defined.

(** X6: a stream is active exactly when it is readable or writable, and it
    is both only when Open. *)
Theorem active_iff_readable_or_writable :
  forall s : stream,
    active s = readable s || writable s
    /\ readable s && writable s = StreamState_eqb (state s) StateOpen.
Proof.
  intro s. unfold active, readable, writable.
  destruct (state s); split; reflexivity.
Qed.

(** X7: [local] reads the parity of the identifier: on a server the
    streams with an even identifier are the locally opened ones, on a
    client those with an odd one. *)
Theorem local_reads_parity :
  forall s : stream,
    local s = Bool.eqb (server (conn s)) (Z.even (id s)).
Proof.
  intro s. unfold local. f_equal.
  change 1 with (Z.ones 1). rewrite Z.land_ones by lia.
  rewrite Zmod_even. destruct (Z.even (id s)); reflexivity.
Qed.

(** ** Forced closure *)

Lemma compareAndSwapState_not_swapped (from to : StreamState) (s s' : stream) :
  compareAndSwapState from to s = Ok (s', false) -> s' = s.
Proof.
  unfold compareAndSwapState.
  destruct (StreamState_eqb (state s) from).
  - match goal with |- bind ?m _ = _ -> _ => destruct m end; cbn [bind];
      intro H; inversion H.
  - intro H; inversion H; reflexivity.
Qed.

(** X8: [close] takes a stream in any state of its life to Closed on its
    first turn: the closure channel is closed, the closure effects are
    performed and the stream removed from the table unless it was Closed
    already, the counter of its side is taken down by one exactly when it
    was active, a send window is left cancelled and empty; and a second
    [close] changes nothing. *)
Theorem close_forces_closed :
  forall (fuel : nat) (s : stream),
    inv s ->
    exists s' : stream,
      close (S fuel) s = Ok s'
      /\ state s' = StateClosed /\ closeCh s' = true
      /\ count is_EvCloseCh (trace s') = 1%nat
      /\ count is_EvRemoveStream (trace s') = 1%nat
      /\ other_counter s' = other_counter s
      /\ counter s'
         = (if active_state (state s)
            then wrap_uint32 (counter s + all_ones_uint32) else counter s)
      /\ (state s <> StateClosed ->
          trace s'
          = trace s
            ++ (if active_state (state s)
                then [EvAddNumStreams (local s) all_ones_uint32] else [])
            ++ closure_effects s
          /\ sendFlow s'
             = match sendFlow s with
               | Some _ => Some (mkRemoteFlowController 0 true)
               | None => None
               end)
      /\ (state s = StateClosed -> s' = s)
      /\ close (S fuel) s' = Ok s'.
Proof.
  intros fuel s I.
  assert (M : moves (state s) StateClosed = true) by (now destruct (state s)).
  destruct (compareAndSwapState_inv (state s) StateClosed s I M)
    as (s' & b & C & I' & L & St).
  pose proof (compareAndSwapState_won _ _ _ _ C) as ->.
  specialize (St eq_refl).
  destruct (compareAndSwapState_effects _ _ _ _ C)
    as (_ & _ & _ & Ho & Hc & evs & Ht & _ & _ & Hf).
  exists s'. cbn [close]. rewrite C. cbn [bind].
  split; [reflexivity|]. split; [exact St|].
  destruct I' as [Ic Icl Irm _ _ _ _ _ _].
  rewrite St in Ic, Icl, Irm. cbn in Ic, Icl, Irm.
  split; [exact Ic|]. split; [exact Icl|]. split; [exact Irm|].
  split; [exact Ho|].
  split.
  { rewrite Hc. unfold is_activation, is_deactivation.
    destruct (state s); reflexivity. }
  split.
  { intro Hn. unfold is_first_close in Hf. cbn [StreamState_eqb andb] in Hf.
    apply StreamState_eqb_neq in Hn. rewrite Hn in Hf. cbn [negb] in Hf.
    destruct Hf as (He & _ & Hs). subst evs. split; [exact Ht|exact Hs]. }
  split.
  { intro Hcl. rewrite Hcl in C.
    rewrite (compareAndSwapState_closed_closed s Hcl) in C.
    inversion C; reflexivity. }
  rewrite St. rewrite <- St at 1.
  assert (C2 := compareAndSwapState_closed_closed s' St).
  rewrite St. rewrite C2. reflexivity.
Qed.

Lemma close_forces_closed_witness :
  inv (new_stream example_conn 1)
  /\ exists s' : stream,
       close 1 (new_stream example_conn 1) = Ok s'
       /\ state s' = StateClosed /\ closeCh s' = true.
Proof.
  split; [apply new_stream_inv|].
  destruct (close_forces_closed 0 (new_stream example_conn 1)
              (new_stream_inv example_conn 1))
    as (s' & C & St & Cl & _).
  exists s'. repeat split; assumption.
Defined.

(** ** Legal transitions and the reset flags *)

Lemma compareAndSwapState_flags (from to : StreamState) (s s' : stream)
    (b : bool) :
  compareAndSwapState from to s = Ok (s', b) ->
  resetSent s' = resetSent s /\ resetReceived s' = resetReceived s
  /\ id s' = id s.
Proof.
  unfold compareAndSwapState.
  destruct (StreamState_eqb (state s) from) eqn:E.
  2:{ intro H; inversion H; subst. repeat split. }
  destruct s as [c i st rf sf fr lw eos rs rr w cl tr].
  unfold swapped_into_active, swapped_into_closed, drain_sendFlow, cancel,
    addNumStreams, local.
  simpl.
  destruct from, to; simpl;
  repeat match goal with
         | |- context [match ?x with _ => _ end] =>
             is_var x; destruct x; simpl
         end;
  intro H; inversion H; subst; clear H; repeat split.
Qed.

(** X9: on a stream in a state of its life, a frame the rule accepts makes
    [transition] return the rule's target and no error on its first turn,
    with the state field set to that target; the reset flag of the
    direction is raised exactly when the frame is a reset, and the other
    flag is left as it was. *)
Theorem legal_transition_applies_rule :
  forall (fuel : nat) (recv : bool) (k : FrameType) (endStream : bool)
         (s : stream) (to : StreamState),
    inv s ->
    transition (state s) recv k endStream = (to, true) ->
    exists s' : stream,
      stream_transition (S fuel) recv k endStream s = Ok (s', (to, None))
      /\ state s' = to
      /\ resetReceived s' = resetReceived s || (recv && is_RSTStream k)
      /\ resetSent s' = resetSent s || (negb recv && is_RSTStream k).
Proof.
  intros fuel recv k endStream s to I T.
  cbn [stream_transition]. unfold transition_attempt. rewrite T.
  cbn [negb].
  destruct (compareAndSwapState_inv (state s) to s I
              (transition_moves _ _ _ _ _ T))
    as (s' & b & C & _ & _ & St).
  pose proof (compareAndSwapState_won _ _ _ _ C) as ->.
  specialize (St eq_refl).
  destruct (compareAndSwapState_flags _ _ _ _ _ C) as (Fs & Fr & _).
  rewrite C. cbn [bind].
  assert (Hrst : is_RSTStream k = true -> to = StateClosed).
  { intro Hk. destruct k; try discriminate Hk.
    destruct (state s), recv, endStream; simpl in T; inversion T;
      reflexivity. }
  destruct (is_RSTStream k) eqn:Hk.
  - rewrite (Hrst eq_refl). cbn [StreamState_eqb andb].
    eexists. split; [reflexivity|].
    destruct recv; cbn; rewrite ?Fs, ?Fr, ?orb_true_r, ?orb_false_r;
      repeat split; try reflexivity; rewrite <- (Hrst eq_refl); exact St.
  - rewrite andb_false_r.
    eexists. split; [reflexivity|].
    rewrite !andb_false_r, !orb_false_r. repeat split; assumption.
Qed.

Lemma legal_transition_applies_rule_witness :
  inv (new_stream example_conn 1)
  /\ transition (state (new_stream example_conn 1)) true FrameHeaders true
     = (StateHalfClosedRemote, true)
  /\ exists s' : stream,
       stream_transition 1 true FrameHeaders true (new_stream example_conn 1)
       = Ok (s', (StateHalfClosedRemote, None))
       /\ state s' = StateHalfClosedRemote.
Proof.
  split; [apply new_stream_inv|]. split; [reflexivity|].
  destruct (legal_transition_applies_rule 0 true FrameHeaders true
              (new_stream example_conn 1) StateHalfClosedRemote
              (new_stream_inv example_conn 1) eq_refl)
    as (s' & R & St & _).
  exists s'. split; assumption.
Defined.

(** X10: a reset is remembered.  Once a reset frame has gone through in
    either direction, every frame received afterwards, other than a
    priority frame, is answered with a stream error of kind STREAM_CLOSED
    naming the stream, and leaves the stream as it is. *)
Theorem frames_after_reset_are_stream_errors :
  forall (fuel fuel' : nat) (recv endStream endStream' : bool)
         (k : FrameType) (s s' : stream),
    inv s ->
    stream_transition (S fuel) recv FrameRSTStream endStream s
    = Ok (s', (StateClosed, None)) ->
    k <> FramePriority ->
    stream_transition (S fuel') true k endStream' s'
    = Ok (s', (StateClosed,
               Some (StreamError (Errorf (MsgAlreadyClosed (id s')))
                       ErrCodeStreamClosed (id s')))).
Proof.
  intros fuel fuel' recv endStream endStream' k s s' I R Hk.
  cbn [stream_transition] in R. unfold transition_attempt in R.
  destruct (transition (state s) recv FrameRSTStream endStream)
    as [to ok] eqn:T.
  destruct ok; cbn [negb] in R; [|cbn [bind] in R; inversion R].
  destruct (compareAndSwapState_inv (state s) to s I
              (transition_moves _ _ _ _ _ T))
    as (s1 & b & C & _ & _ & St).
  pose proof (compareAndSwapState_won _ _ _ _ C) as ->.
  specialize (St eq_refl).
  rewrite C in R. cbn [bind] in R.
  assert (Hto : to = StateClosed).
  { destruct (state s), recv, endStream; simpl in T; inversion T;
      reflexivity. }
  rewrite Hto in R, St. cbn [StreamState_eqb is_RSTStream andb] in R.
  assert (Hs' : state s' = StateClosed
                /\ (resetReceived s' = true \/ resetSent s' = true)).
  { destruct recv; inversion R; subst s'; cbn; split; auto. }
  destruct Hs' as [Hst Hfl].
  cbn [stream_transition]. unfold transition_attempt. rewrite Hst.
  assert (Ht : transition StateClosed true k endStream'
               = (StateClosed, false))
    by (destruct k, endStream'; try reflexivity; congruence).
  rewrite Ht. cbn [negb bind].
  unfold illegal_error. cbn [negb].
  destruct Hfl as [-> | ->]; [reflexivity|].
  destruct (resetReceived s'); reflexivity.
Qed.

Lemma frames_after_reset_are_stream_errors_witness :
  inv (set_state StateReservedLocal (new_stream example_conn 2))
  /\ exists s' : stream,
       stream_transition 1 false FrameRSTStream false
         (set_state StateReservedLocal (new_stream example_conn 2))
       = Ok (s', (StateClosed, None))
       /\ stream_transition 1 true FrameData false s'
          = Ok (s', (StateClosed,
                     Some (StreamError (Errorf (MsgAlreadyClosed (id s')))
                             ErrCodeStreamClosed (id s')))).
Proof.
  assert (I : inv (set_state StateReservedLocal (new_stream example_conn 2))).
  { constructor; cbn; try reflexivity; try discriminate; try lia;
      try (intros _; repeat split; reflexivity); constructor. }
  split; [exact I|].
  eexists. split; [reflexivity|].
  apply (frames_after_reset_are_stream_errors 0 0 false false false FrameData
           (set_state StateReservedLocal (new_stream example_conn 2)) _
           I); [reflexivity|discriminate].
Defined.

(** ** Registration and accounting over a whole life *)

Lemma transition_into_idle (from to : StreamState) (recv : bool)
    (k : FrameType) (endStream : bool) :
  transition from recv k endStream = (to, true) ->
  to = StateIdle -> from = StateIdle.
Proof.
  intros H ->.
  destruct from, recv, k, endStream; simpl in H; inversion H; reflexivity.
Qed.

Lemma compareAndSwapState_registered (from to : StreamState) (s s' : stream)
    (b : bool) :
  compareAndSwapState from to s = Ok (s', b) ->
  moves from to = true -> (to = StateIdle -> from = StateIdle) ->
  registered_once s -> registered_once s'.
Proof.
  unfold compareAndSwapState.
  destruct (StreamState_eqb (state s) from) eqn:E.
  2:{ intro H; inversion H; subst. auto. }
  apply StreamState_eqb_eq in E. subst from.
  intros H M Hi (R1 & R2 & R3). revert H.
  destruct s as [c i st rf sf fr lw eos rs rr w cl tr].
  unfold swapped_into_active, swapped_into_closed, drain_sendFlow, cancel,
    addNumStreams, local, registered_once in *.
  cbn [state trace] in *.
  destruct st, to; cbn in M; try discriminate M;
    try (specialize (Hi eq_refl); discriminate Hi);
    try (specialize (R2 eq_refl));
    try (specialize (R3 ltac:(discriminate) ltac:(discriminate)));
    simpl;
    repeat match goal with
           | |- context [match ?x with _ => _ end] =>
               is_var x; destruct x; simpl
           end;
    intro H; inversion H; subst; clear H; simpl;
    rewrite ?count_app; unfold count in *; simpl;
    repeat split; intros; try congruence; lia.
Qed.

Lemma attempt_step_registered (a : attempt) (s s' : stream) :
  attempt_step a s = Ok s' -> registered_once s -> registered_once s'.
Proof.
  destruct a as [from recv k endStream | from]; cbn [attempt_step].
  - unfold transition_attempt.
    destruct (transition from recv k endStream) as [to ok] eqn:T.
    destruct ok; cbn [negb bind].
    + destruct (compareAndSwapState from to s) as [[s1 b]|f] eqn:C;
        cbn [bind]; [|discriminate].
      intros H R.
      pose proof (compareAndSwapState_registered _ _ _ _ _ C
                    (transition_moves _ _ _ _ _ T)
                    (transition_into_idle _ _ _ _ _ T) R) as R1.
      destruct b; cbn [bind] in H.
      * destruct (StreamState_eqb to StateClosed && is_RSTStream k);
          [destruct recv|]; inversion H; subst; exact R1.
      * inversion H; subst; exact R1.
    + intros H R. inversion H; subst; exact R.
  - destruct (compareAndSwapState from StateClosed s) as [[s1 b]|f] eqn:C;
      cbn [bind]; [|discriminate].
    intros H R. inversion H; subst.
    apply (compareAndSwapState_registered _ _ _ _ _ C); auto.
    + now destruct from.
    + discriminate.
Qed.

(** X11: over any interleaving of transition and close attempts on a new
    stream, the stream is put in the connection's table at most once: not
    while it is Idle, and exactly once by the time it is in a reserved or an
    active state. *)
Theorem registered_exactly_once :
  forall (l : list attempt) (s0 : stream),
    fresh s0 ->
    exists s : stream,
      run l s0 = Ok s
      /\ (count is_EvAddStream (trace s) <= 1)%nat
      /\ (state s = StateIdle -> count is_EvAddStream (trace s) = 0%nat)
      /\ (state s <> StateIdle -> state s <> StateClosed ->
          count is_EvAddStream (trace s) = 1%nat).
Proof.
  intros l s0 F.
  assert (R0 : registered_once s0).
  { destruct F as (Hst & _ & _ & _ & Ht). unfold registered_once.
    rewrite Ht, Hst. cbn. repeat split; intros; try congruence; lia. }
  pose proof (fresh_inv s0 F) as I0. clear F.
  revert s0 I0 R0.
  induction l as [|a l IH]; intros s0 I0 R0; cbn [run].
  - exists s0. split; [reflexivity|exact R0].
  - destruct (attempt_step_inv a s0 I0) as (s1 & A & I1 & _).
    rewrite A. cbn [bind].
    apply (IH s1 I1). exact (attempt_step_registered a s0 s1 A R0).
Qed.

Lemma registered_exactly_once_witness :
  fresh (new_stream example_conn 2)
  /\ exists s : stream,
       run [TryTransition StateIdle false FramePushPromise false;
            TryTransition StateReservedLocal false FrameHeaders false]
         (new_stream example_conn 2) = Ok s
       /\ state s = StateHalfClosedRemote
       /\ count is_EvAddStream (trace s) = 1%nat.
Proof.
  assert (F : fresh (new_stream example_conn 2))
    by (repeat split; reflexivity).
  split; [exact F|].
  destruct (registered_exactly_once
              [TryTransition StateIdle false FramePushPromise false;
               TryTransition StateReservedLocal false FrameHeaders false]
              (new_stream example_conn 2) F)
    as (s & R & _ & _ & H1).
  exists s. split; [exact R|].
  vm_compute in R. inversion R; subst s.
  split; [reflexivity|]. apply H1; discriminate.
Defined.

Lemma wrap_uint32_up_down (c : Z) :
  0 <= c < 2 ^ 32 ->
  wrap_uint32 (wrap_uint32 (c + 1) + all_ones_uint32) = c.
Proof.
  intro H. unfold wrap_uint32, all_ones_uint32.
  rewrite Zplus_mod_idemp_l.
  replace (c + 1 + (2 ^ 32 - 1)) with (c + 1 * 2 ^ 32) by ring.
  rewrite Z_mod_plus_full. apply Z.mod_small. exact H.
Qed.

Lemma compareAndSwapState_balanced (c0 o0 : Z) (from to : StreamState)
    (s s' : stream) (b : bool) :
  0 <= c0 < 2 ^ 32 ->
  compareAndSwapState from to s = Ok (s', b) ->
  moves from to = true ->
  counters_balanced c0 o0 s -> counters_balanced c0 o0 s'.
Proof.
  intros Hc C M (B1 & B2).
  destruct b.
  - destruct (compareAndSwapState_effects _ _ _ _ C)
      as (Hf & Ht & _ & Ho & Hcn & _).
    unfold counters_balanced. rewrite Ho, Hcn, Ht, B2, Hf.
    split; [exact B1|].
    unfold is_activation, is_deactivation.
    destruct from, to; cbn in M; try discriminate M; cbn;
      try reflexivity; apply wrap_uint32_up_down; exact Hc.
  - rewrite (compareAndSwapState_not_swapped _ _ _ _ C). split; assumption.
Qed.

Lemma attempt_step_balanced (c0 o0 : Z) (a : attempt) (s s' : stream) :
  0 <= c0 < 2 ^ 32 ->
  attempt_step a s = Ok s' ->
  counters_balanced c0 o0 s -> counters_balanced c0 o0 s'.
Proof.
  intro Hc.
  destruct a as [from recv k endStream | from]; cbn [attempt_step].
  - unfold transition_attempt.
    destruct (transition from recv k endStream) as [to ok] eqn:T.
    destruct ok; cbn [negb bind].
    + destruct (compareAndSwapState from to s) as [[s1 b]|f] eqn:C;
        cbn [bind]; [|discriminate].
      intros H B.
      pose proof (compareAndSwapState_balanced c0 o0 _ _ _ _ _ Hc C
                    (transition_moves _ _ _ _ _ T) B) as B1.
      destruct b; cbn [bind] in H.
      * destruct (StreamState_eqb to StateClosed && is_RSTStream k);
          [destruct recv|]; inversion H; subst; exact B1.
      * inversion H; subst; exact B1.
    + intros H B. inversion H; subst; exact B.
  - destruct (compareAndSwapState from StateClosed s) as [[s1 b]|f] eqn:C;
      cbn [bind]; [|discriminate].
    intros H B. inversion H; subst.
    apply (compareAndSwapState_balanced c0 o0 _ _ _ _ _ Hc C); auto.
    now destruct from.
Qed.

(** X12: over any interleaving of transition and close attempts on a new
    stream, the active-stream counter of the side that opened it stands one
    above its starting value (modulo 2^32) while the stream is Open or
    half-closed and at its starting value otherwise, in particular once the
    stream is Closed; the counter of the other side never moves. *)
Theorem counters_balanced_over_life :
  forall (l : list attempt) (s0 : stream),
    fresh s0 ->
    0 <= counter s0 < 2 ^ 32 ->
    exists s : stream,
      run l s0 = Ok s
      /\ other_counter s = other_counter s0
      /\ counter s
         = if active_state (state s)
           then wrap_uint32 (counter s0 + 1) else counter s0.
Proof.
  intros l s0 F Hc.
  assert (B0 : counters_balanced (counter s0) (other_counter s0) s0).
  { destruct F as (Hst & _). unfold counters_balanced. rewrite Hst.
    split; reflexivity. }
  pose proof (fresh_inv s0 F) as I0. clear F.
  generalize dependent (other_counter s0).
  generalize dependent (counter s0).
  intros c0 Hc o0. revert s0 I0.
  induction l as [|a l IH]; intros s0 I0 B0; cbn [run].
  - exists s0. split; [reflexivity|exact B0].
  - destruct (attempt_step_inv a s0 I0) as (s1 & A & I1 & _).
    rewrite A. cbn [bind].
    apply (IH s1 I1). exact (attempt_step_balanced c0 o0 a s0 s1 Hc A B0).
Qed.

Lemma counters_balanced_over_life_witness :
  fresh (new_stream example_conn 1)
  /\ 0 <= counter (new_stream example_conn 1) < 2 ^ 32
  /\ exists s : stream,
       run [TryTransition StateIdle true FrameHeaders false;
            TryClose StateIdle; TryClose StateOpen]
         (new_stream example_conn 1) = Ok s
       /\ state s = StateClosed
       /\ counter s = counter (new_stream example_conn 1).
Proof.
  assert (F : fresh (new_stream example_conn 1))
    by (repeat split; reflexivity).
  assert (Hc : 0 <= counter (new_stream example_conn 1) < 2 ^ 32)
    by (cbn; lia).
  split; [exact F|]. split; [exact Hc|].
  destruct (counters_balanced_over_life
              [TryTransition StateIdle true FrameHeaders false;
               TryClose StateIdle; TryClose StateOpen]
              (new_stream example_conn 1) F Hc)
    as (s & R & _ & H1).
  exists s. split; [exact R|].
  vm_compute in R. inversion R; subst s.
  split; reflexivity.
Defined.

(** ** The swap that ends the local half *)

(** X13: the swap from Open to HalfClosedLocal, on a stream in a state of
    its life, succeeds, sends the closed-stream error to a waiting writer,
    and leaves the send window cancelled and at zero whatever it held; the
    receive window, the counters and the closure channel are untouched and
    the stream stays in the table. *)
Theorem local_half_close_drains_send_window :
  forall s : stream,
    inv s -> state s = StateOpen ->
    exists (s' : stream) (f : remoteFlowController),
      sendFlow s = Some f
      /\ compareAndSwapState StateOpen StateHalfClosedLocal s = Ok (s', true)
      /\ state s' = StateHalfClosedLocal
      /\ sendFlow s' = Some (mkRemoteFlowController 0 true)
      /\ trace s'
         = trace s ++ [EvCancel errStreamClosed; EvSendFlowCancel;
                       EvSendFlowIncrementWindow (wrap_int (- window f))]
      /\ recvFlow s' = recvFlow s /\ conn s' = conn s
      /\ closeCh s' = closeCh s.
Proof.
  intros s I Hst.
  destruct (sendFlow s) as [f|] eqn:Hf;
    [|exfalso; exact (inv_open s I Hst Hf)].
  unfold compareAndSwapState. rewrite Hst. cbn [StreamState_eqb bind].
  unfold swapped_into_active. cbn [StreamState_eqb].
  unfold cancel. cbn [sendFlow emit set_state]. rewrite Hf.
  eexists; exists f. split; [reflexivity|]. split; [reflexivity|].
  unfold drain_sendFlow, incrementWindow, sendFlow_cancel.
  cbn. rewrite wrap_int_cancel. rewrite <- !app_assoc.
  repeat split; reflexivity.
Qed.

Lemma local_half_close_drains_send_window_witness :
  exists s : stream,
    stream_transition 1 true FrameHeaders false (new_stream example_conn 1)
    = Ok (s, (StateOpen, None))
    /\ inv s /\ state s = StateOpen
    /\ exists s' : stream,
         compareAndSwapState StateOpen StateHalfClosedLocal s = Ok (s', true)
         /\ sendFlow s' = Some (mkRemoteFlowController 0 true).
Proof.
  destruct (stream_transition_returns 0 true FrameHeaders false
              (new_stream example_conn 1) (new_stream_inv example_conn 1))
    as (s & out & R & I & _ & _ & M).
  cbn in M. destruct M as [St ->].
  exists s. split; [exact R|]. split; [exact I|]. split; [exact St|].
  destruct (local_half_close_drains_send_window s I St)
    as (s' & f & _ & C & _ & Sf & _).
  exists s'. split; assumption.
Defined.

(** ** What a write does to the stream *)

Lemma transition_refused_keeps (from to : StreamState) (recv : bool)
    (k : FrameType) (endStream : bool) :
  transition from recv k endStream = (to, false) -> to = from.
Proof.
  destruct from, recv, k, endStream; simpl; intro H; inversion H;
    reflexivity.
Qed.

Lemma same_machine_refl (s : stream) : same_machine s s.
Proof. constructor; reflexivity. Qed.

Lemma same_machine_trans (s1 s2 s3 : stream) :
  same_machine s1 s2 -> same_machine s2 s3 -> same_machine s1 s3.
Proof. intros [] []; constructor; congruence. Qed.

Lemma submit_effect (E : Collaborators) (fuel j : nat) (s s' : stream)
    (f : Frame) (r : option error) :
  inv s -> Frame_ s = Some f ->
  submit E fuel j s = Ok (s', r) ->
  r = flushOutcome E j /\ inv s' /\ wio s' = wio s
  /\ sawEOS s' = EndOfStream f
  /\ if EndOfStream f && is_nil r
     then state s' = fst (transition (state s) false (Type_ f) true)
     else same_machine s s'.
Proof.
  intros I F H.
  assert (I1 : inv (emit (EvQueueAdd false) s)).
  { apply (inv_neutral s); try reflexivity; [assumption|].
    exists [EvQueueAdd false]. split; [reflexivity|repeat constructor]. }
  destruct fuel as [|fuel].
  - unfold submit, writeTo in H. cbn [Frame_ emit] in H. rewrite F in H.
    cbn [sawEOS set_sawEOS emit] in H.
    destruct (EndOfStream f && is_nil (flushOutcome E j)) eqn:G;
      cbn [stream_transition bind] in H; [discriminate H|].
    inversion H; subst s' r. rewrite G.
    split; [reflexivity|].
    split; [exact (inv_recorded f _ _ I1)|].
    split; [reflexivity|]. split; [reflexivity|].
    constructor; reflexivity.
  - destruct (writeTo_returns fuel (flushOutcome E j)
                (emit (EvQueueAdd false) s) f I1 F)
      as (s1 & err & W & I' & Io & Rest).
    unfold submit in H. rewrite W in H. cbn [bind] in H.
    inversion H; subst s1 r. clear H.
    split; [reflexivity|]. split; [exact I'|].
    destruct Io as [_ Heos _ Hw _ _ _ _ _].
    split; [exact Hw|]. split; [exact Heos|].
    destruct (EndOfStream f && is_nil (flushOutcome E j)).
    + destruct Rest as [_ M]. cbn [state emit] in M.
      destruct (transition (state s) false (Type_ f) true) as [to [|]] eqn:T;
        cbn [fst]; destruct M as [M _]; [exact M|].
      rewrite M. symmetry. exact (transition_refused_keeps _ _ _ _ _ T).
    + destruct Rest as [-> _]. constructor; reflexivity.
Qed.

Lemma cut_chunk_flag (data c : DataFrame) (dataLen padLen allowed d' p' : Z)
    (lastFrame : bool) :
  cut_chunk data dataLen padLen allowed = (c, d', p', lastFrame) ->
  EndStream c = EndStream data && lastFrame.
Proof.
  unfold cut_chunk. intro H. inversion H; subst. reflexivity.
Qed.

Lemma write_again_effect (E : Collaborators) (data : DataFrame) :
  forall (fuel k j : nat) (dataLen padLen allowed : Z) (s s' : stream)
         (r : option error),
    inv s ->
    write_again E fuel k j data dataLen padLen allowed s = Ok (s', r) ->
    inv s' /\ wio s' = wio s
    /\ (r = None -> sawEOS s' = EndStream data)
    /\ if EndStream data && is_nil r
       then state s' = fst (transition (state s) false FrameData true)
       else same_machine s s'.
Proof.
  induction fuel as [|fuel IH];
    intros k j dataLen padLen allowed s s' r I H; [discriminate H|].
  cbn [write_again] in H.
  destruct (cut_chunk data dataLen padLen allowed)
    as [[[c d'] p'] lastFrame] eqn:Cut.
  pose proof (cut_chunk_flag _ _ _ _ _ _ _ _ Cut) as Hflag.
  destruct (submit E (S fuel) j (set_Frame (OfData c) s))
    as [[s1 err]|flt] eqn:Sb; cbn [bind] in H; [|discriminate H].
  destruct (submit_effect E (S fuel) j _ s1 (OfData c) err
              (inv_set_Frame _ s I) eq_refl Sb)
    as (_ & I1 & W1 & Eos1 & M1).
  cbn [EndOfStream Type_ state set_Frame wio] in M1, W1, Eos1.
  destruct (lastFrame || negb (is_nil err)) eqn:Stop.
  - inversion H; subst s1 err. clear H.
    split; [exact I1|]. split; [exact W1|].
    split.
    { intros ->. cbn [is_nil negb] in Stop. rewrite orb_false_r in Stop.
      rewrite Eos1, Hflag, Stop. apply andb_true_r. }
    destruct r as [e|]; cbn [is_nil negb] in *.
    + rewrite andb_false_r in *. destruct M1; constructor; assumption.
    + rewrite orb_false_r in Stop. subst lastFrame.
      rewrite andb_true_r in *. rewrite Hflag in M1.
      destruct (EndStream data);
        [exact M1|destruct M1; constructor; assumption].
  - apply orb_false_elim in Stop. destruct Stop as [-> Herr].
    rewrite andb_false_r in Hflag. rewrite Hflag in M1.
    cbn [andb] in M1.
    destruct (allocateBytes E k (wrap_int (d' + p'))) as [allowed' [e|]].
    + inversion H; subst s1 r. clear H.
      split; [exact I1|]. split; [exact W1|].
      split; [discriminate|].
      cbn [is_nil]. rewrite andb_false_r.
      destruct M1; constructor; assumption.
    + destruct (IH _ _ _ _ _ _ _ _ I1 H) as (I' & W' & Eos' & M').
      split; [exact I'|]. split; [congruence|]. split; [exact Eos'|].
      destruct (EndStream data && is_nil r).
      * rewrite M'. now rewrite (sm_state _ _ M1).
      * apply (same_machine_trans _ s1); [|exact M'].
        destruct M1; constructor; assumption.
Qed.

Lemma write_effect (E : Collaborators) (fuel : nat) (f : Frame)
    (s s' : stream) (r : option error) :
  inv s -> wio s = true ->
  write E fuel TokenTaken f s = Ok (s', r) ->
  inv s' /\ wio s' = true
  /\ (r = None -> sawEOS s' = EndOfStream f)
  /\ if EndOfStream f && is_nil r
     then state s' = fst (transition (state s) false (Type_ f) true)
     else same_machine s s'.
Proof.
  intros I W H.
  assert (I0 : inv (set_wio false s)).
  { apply (inv_neutral s); try reflexivity; [assumption|].
    exists []. split; [simpl; now rewrite app_nil_r|constructor]. }
  assert (Back : forall s1 : stream, inv s1 -> inv (set_wio true s1)).
  { intros s1 I1. apply (inv_neutral s1); try reflexivity; [assumption|].
    exists []. split; [simpl; now rewrite app_nil_r|constructor]. }
  assert (Unchanged : forall e : error,
             inv (set_wio true (set_wio false s))
             /\ wio (set_wio true (set_wio false s)) = true
             /\ (Some e = None ->
                 sawEOS (set_wio true (set_wio false s)) = EndOfStream f)
             /\ (if EndOfStream f && is_nil (Some e)
                 then state (set_wio true (set_wio false s))
                      = fst (transition (state s) false (Type_ f) true)
                 else same_machine s (set_wio true (set_wio false s)))).
  { intro e. split; [apply Back, I0|]. split; [reflexivity|].
    split; [discriminate|]. cbn [is_nil]. rewrite andb_false_r.
    constructor; reflexivity. }
  unfold write in H. rewrite W in H. unfold write_locked in H.
  cbn [sawEOS set_wio] in H.
  destruct (sawEOS s).
  { cbn [bind] in H. inversion H; subst. apply Unchanged. }
  assert (Direct : forall s1 err,
             submit E fuel 0 (set_Frame f (set_wio false s)) = Ok (s1, err) ->
             Ok (set_wio true s1, err) = Ok (s', r) ->
             inv s' /\ wio s' = true
             /\ (r = None -> sawEOS s' = EndOfStream f)
             /\ (if EndOfStream f && is_nil r
                 then state s' = fst (transition (state s) false (Type_ f) true)
                 else same_machine s s')).
  { intros s1 err Sb Hr. inversion Hr; subst s' r. clear Hr.
    destruct (submit_effect E fuel 0 _ s1 f err (inv_set_Frame _ _ I0)
                eq_refl Sb) as (_ & I1 & _ & Eos1 & M1).
    split; [apply Back, I1|]. split; [reflexivity|].
    split; [intros _; exact Eos1|].
    destruct (EndOfStream f && is_nil err); [exact M1|].
    destruct M1; constructor; assumption. }
  destruct (is_Headers (Type_ f)).
  { destruct (submit E fuel 0 (set_Frame f (set_wio false s)))
      as [[s1 err]|flt] eqn:Sb; cbn [bind] in H; [|discriminate H].
    exact (Direct s1 err eq_refl H). }
  destruct f as [data|t eos].
  2:{ cbn [bind] in H. inversion H; subst. apply Unchanged. }
  destruct (allocateBytes E 0 (wrap_int (DataLen data + PadLen data)))
    as [allowed [e|]].
  { cbn [bind] in H. inversion H; subst. apply Unchanged. }
  destruct (allowed =? wrap_int (DataLen data + PadLen data)).
  { destruct (submit E fuel 0 (set_Frame (OfData data) (set_wio false s)))
      as [[s1 err]|flt] eqn:Sb; cbn [bind] in H; [|discriminate H].
    exact (Direct s1 err eq_refl H). }
  destruct (write_again E fuel 1 0 data (DataLen data) (PadLen data) allowed
              (set_wio false s)) as [[s1 err]|flt] eqn:Wa;
    cbn [bind] in H; [|discriminate H].
  inversion H; subst s' r. clear H.
  destruct (write_again_effect E data _ _ _ _ _ _ _ _ _ I0 Wa)
    as (I1 & _ & Eos1 & M1).
  split; [apply Back, I1|]. split; [reflexivity|].
  split; [exact Eos1|].
  cbn [EndOfStream Type_].
  destruct (EndStream data && is_nil err); [exact M1|].
  destruct M1; constructor; assumption.
Qed.



(** X16: end-of-stream is final for the writer.  After a write of a frame
    carrying end-of-stream has returned without error, every further write
    that takes the token, whatever the frame and the collaborators, is
    refused with the closed-stream error and leaves the stream as it is:
    nothing is queued or allocated. *)
Theorem write_after_end_of_stream_refused :
  forall (E E' : Collaborators) (fuel fuel' : nat) (f f' : Frame)
         (s s' : stream),
    inv s -> wio s = true ->
    write E fuel TokenTaken f s = Ok (s', None) ->
    EndOfStream f = true ->
    write E' fuel' TokenTaken f' s' = Ok (s', Some errStreamClosed).
Proof.
  intros E E' fuel fuel' f f' s s' I W H Hf.
  destruct (write_effect E fuel f s s' None I W H) as (_ & W' & Eos & _).
  specialize (Eos eq_refl). rewrite Hf in Eos.
  unfold write, write_locked. rewrite W'. cbn [sawEOS set_wio].
  rewrite Eos. cbn [bind]. now rewrite (set_wio_restore s' W').
Qed.

Lemma write_after_end_of_stream_refused_witness :
  inv (new_stream example_conn 1)
  /\ exists s' : stream,
       write (steady 8) 2 TokenTaken (OfKind FrameHeaders true)
         (new_stream example_conn 1) = Ok (s', None)
       /\ write (steady 8) 2 TokenTaken (OfData (mkDataFrame 3 0 false)) s'
          = Ok (s', Some errStreamClosed).
Proof.
  split; [apply new_stream_inv|].
  eexists. split; [vm_compute; reflexivity|].
  apply (write_after_end_of_stream_refused (steady 8) (steady 8) 2 2
           (OfKind FrameHeaders true) (OfData (mkDataFrame 3 0 false))
           (new_stream example_conn 1) _ (new_stream_inv example_conn 1)
           eq_refl); reflexivity.
Defined.

(** ** Fragmentation under any allocator that makes progress *)

Lemma chunks_cut_sizes (E : Collaborators) (eos : bool) :
  grants_progress E ->
  forall (chunks : list DataFrame) (k j : nat) (d p : Z),
    0 <= d -> 0 <= p ->
    chunks_cut E eos (S k) j d p (fst (allocateBytes E k (d + p))) chunks ->
    forall l1 c l2,
      chunks = l1 ++ c :: l2 ->
      0 <= DataLen c /\ 0 <= PadLen c
      /\ DataLen c + PadLen c
         = fst (allocateBytes E (k + length l1)
                  (d + p - sumZ (map DataLen l1) - sumZ (map PadLen l1))).
Proof.
  intro G.
  induction chunks as [|c rest IH]; intros k j d p Hd Hp C l1 c' l2 Hl;
    [destruct C|].
  cbn [chunks_cut] in C. destruct C as (C1 & C2 & C3).
  destruct (G k (d + p) ltac:(lia)) as [_ Gg].
  destruct l1 as [|x l1].
  - cbn in Hl. inversion Hl; subst c' l2. cbn [length map sumZ fold_right].
    rewrite Nat.add_0_r, !Z.sub_0_r. lia.
  - cbn in Hl. inversion Hl as [[Hx Hrest]]. subst x.
    destruct (d - DataLen c + (p - PadLen c) =? 0).
    + destruct C3 as [_ ->]. destruct l1; discriminate Hrest.
    + destruct C3 as [_ C3].
      destruct (is_nil (flushOutcome E j));
        [|subst rest; destruct l1; discriminate Hrest].
      destruct (IH (S k) (S j) (d - DataLen c) (p - PadLen c)
                  ltac:(lia) ltac:(lia) C3 l1 c' l2 Hrest)
        as (H1 & H2 & H3).
      split; [exact H1|]. split; [exact H2|].
      rewrite H3. cbn [length map sumZ fold_right].
      fold (sumZ (map DataLen l1)). fold (sumZ (map PadLen l1)).
      replace (k + S (length l1))%nat with (S k + length l1)%nat by lia.
      replace (d + p - (DataLen c + sumZ (map DataLen l1))
               - (PadLen c + sumZ (map PadLen l1)))
        with (d - DataLen c + (p - PadLen c) - sumZ (map DataLen l1)
              - sumZ (map PadLen l1)) by lia.
      reflexivity.
Qed.

(** X14: flow control is respected.  With an allocator that never fails
    and grants between one byte and what is asked, every chunk a data write
    transmits carries, payload and padding together, exactly the number of
    bytes the allocator granted for it when asked for what was then left to
    send: nothing goes out without a grant and no granted byte is left
    unused. *)
Theorem chunks_carry_exactly_the_grants :
  forall (E : Collaborators) (data : DataFrame) (fuel : nat) (s : stream),
    grants_progress E ->
    inv s -> wio s = true -> sawEOS s = false ->
    0 <= DataLen data -> 0 <= PadLen data <= 255 ->
    DataLen data + PadLen data < 2 ^ 63 ->
    (Z.to_nat (DataLen data + PadLen data) < fuel)%nat ->
    exists (s' : stream) (chunks : list DataFrame) (r : option error),
      write E fuel TokenTaken (OfData data) s = Ok (s', r)
      /\ flushed_frames (trace s')
         = flushed_frames (trace s) ++ map OfData chunks
      /\ forall l1 c l2,
           chunks = l1 ++ c :: l2 ->
           0 <= DataLen c /\ 0 <= PadLen c
           /\ DataLen c + PadLen c
              = fst (allocateBytes E (length l1)
                       (DataLen data + PadLen data
                        - sumZ (map DataLen l1) - sumZ (map PadLen l1))).
Proof.
  intros E data fuel s G I W Eos Hd Hp Hs Hf.
  destruct (write_data_returns E data fuel s G I W Eos Hd Hp Hs Hf)
    as (s' & chunks & n & R & _ & _ & _ & F' & _ & C').
  exists s', chunks, (flushOutcome E n).
  split; [exact R|]. split; [exact F'|].
  exact (chunks_cut_sizes E (EndStream data) G chunks 0 0 (DataLen data)
           (PadLen data) Hd ltac:(lia) C').
Qed.

Lemma chunks_carry_exactly_the_grants_witness :
  grants_progress (steady 2)
  /\ inv (new_stream example_conn 1)
  /\ exists (s' : stream) (chunks : list DataFrame) (r : option error),
       write (steady 2) 4 TokenTaken (OfData (mkDataFrame 3 0 false))
         (new_stream example_conn 1) = Ok (s', r)
       /\ flushed_frames (trace s')
          = flushed_frames (trace (new_stream example_conn 1))
            ++ map OfData chunks.
Proof.
  assert (G : grants_progress (steady 2))
    by (apply grants_progress_steady; lia).
  split; [exact G|]. split; [apply new_stream_inv|].
  destruct (chunks_carry_exactly_the_grants (steady 2)
              (mkDataFrame 3 0 false) 4%nat (new_stream example_conn 1)
              G (new_stream_inv example_conn 1) eq_refl eq_refl)
    as (s' & chunks & r & R & F' & _); cbn [DataLen PadLen]; try lia.
  exists s', chunks, r. split; assumption.
Defined.

Lemma chunks_cut_stops (E : Collaborators) (eos : bool) :
  forall (chunks : list DataFrame) (k j : nat) (d p a : Z) (i : nat),
    chunks_cut E eos k j d p a chunks ->
    (S i < length chunks)%nat ->
    flushOutcome E (j + i) = None.
Proof.
  induction chunks as [|c rest IH]; intros k j d p a i C Hi;
    [destruct C|].
  cbn [chunks_cut] in C. destruct C as (_ & _ & C3).
  cbn [length] in Hi.
  destruct (d - DataLen c + (p - PadLen c) =? 0).
  - destruct C3 as [_ ->]. cbn in Hi. lia.
  - destruct C3 as [_ C3].
    destruct (flushOutcome E j) as [e|] eqn:Fl; cbn [is_nil] in C3.
    + subst rest. cbn in Hi. lia.
    + destruct i as [|i]; [now rewrite Nat.add_0_r|].
      replace (j + S i)%nat with (S j + i)%nat by lia.
      apply (IH _ _ _ _ _ i C3). lia.
Qed.

(** X15: a data write stops at the first transmit that fails and returns
    its error; and when it returns no error the whole frame is out: the
    chunks transmitted carry all of its payload and all of its padding.
    (Allocator as in X14.) *)
Theorem write_returns_nil_only_when_complete :
  forall (E : Collaborators) (data : DataFrame) (fuel : nat) (s : stream),
    grants_progress E ->
    inv s -> wio s = true -> sawEOS s = false ->
    0 <= DataLen data -> 0 <= PadLen data <= 255 ->
    DataLen data + PadLen data < 2 ^ 63 ->
    (Z.to_nat (DataLen data + PadLen data) < fuel)%nat ->
    exists (s' : stream) (chunks : list DataFrame) (n : nat),
      write E fuel TokenTaken (OfData data) s = Ok (s', flushOutcome E n)
      /\ length chunks = S n
      /\ flushed_frames (trace s')
         = flushed_frames (trace s) ++ map OfData chunks
      /\ (forall i : nat, (i < n)%nat -> flushOutcome E i = None)
      /\ (flushOutcome E n = None ->
          sumZ (map DataLen chunks) = DataLen data
          /\ sumZ (map PadLen chunks) = PadLen data).
Proof.
  intros E data fuel s G I W Eos Hd Hp Hs Hf.
  destruct (write_data_returns E data fuel s G I W Eos Hd Hp Hs Hf)
    as (s' & chunks & n & R & Len & _ & _ & F' & _ & C').
  exists s', chunks, n.
  split; [exact R|]. split; [exact Len|]. split; [exact F'|].
  assert (Early : forall i : nat, (i < n)%nat -> flushOutcome E i = None).
  { intros i Hi.
    apply (chunks_cut_stops E (EndStream data) chunks 1 0 _ _ _ i C').
    lia. }
  split; [exact Early|].
  intro Hn.
  destruct (G 0%nat (DataLen data + PadLen data) ltac:(lia)) as [_ Gg].
  apply (chunks_cut_complete E (EndStream data) G chunks 1 0
           (DataLen data) (PadLen data)
           (fst (allocateBytes E 0 (DataLen data + PadLen data))));
    try lia; [|exact C'].
  intros i Hi.
  destruct (Nat.eq_dec i n) as [->|Hne]; [exact Hn|].
  apply Early. lia.
Qed.

Lemma write_returns_nil_only_when_complete_witness :
  grants_progress (mkCollaborators (fun _ wanted => (Z.min wanted 2, None))
                     (fun j => if Nat.eqb j 1 then Some (Foreign 7)
                               else None))
  /\ inv (new_stream example_conn 1)
  /\ exists (s' : stream) (chunks : list DataFrame),
       write (mkCollaborators (fun _ wanted => (Z.min wanted 2, None))
                (fun j => if Nat.eqb j 1 then Some (Foreign 7) else None))
         7 TokenTaken (OfData (mkDataFrame 6 0 true))
         (new_stream example_conn 1) = Ok (s', Some (Foreign 7))
       /\ flushed_frames (trace s') = map OfData chunks
       /\ length chunks = 2%nat.
Proof.
  assert (G : grants_progress
                (mkCollaborators (fun _ wanted => (Z.min wanted 2, None))
                   (fun j => if Nat.eqb j 1 then Some (Foreign 7)
                             else None))).
  { intros k wanted Hw. cbn [allocateBytes fst snd].
    split; [reflexivity|lia]. }
  split; [exact G|]. split; [apply new_stream_inv|].
  destruct (write_returns_nil_only_when_complete _
              (mkDataFrame 6 0 true) 7%nat (new_stream example_conn 1)
              G (new_stream_inv example_conn 1) eq_refl eq_refl)
    as (s' & chunks & n & R & Len & F' & _); cbn [DataLen PadLen]; try lia.
  exists s', chunks.
  assert (Hn : n = 1%nat).
  { vm_compute in R. inversion R as [[Hs Hr]].
    destruct n as [|[|n]]; try discriminate Hr; reflexivity. }
  subst n. split; [exact R|]. split; [exact F'|exact Len].
Defined.

(** ** The send window over a whole life *)




